(** * A toy proof-of-work block chain: [blockchain_core.py]

    The chain engine of the repository is embedded function by function:
    [Block.calculate_hash], [Block.mine_block], [Blockchain.add_block],
    [Blockchain.is_chain_valid], [Blockchain.search_block] and
    [Blockchain.tamper_block].

    Conventions of the embedding.
    - Python [int]s are [Z]; list positions are [nat].
    - Python [str]s are [string]s of ASCII text, on which [encode()] is the
      identity on bytes and [lower()] only moves ['A'..'Z'].
    - [hashlib.sha256(..).hexdigest()] is SHA-256 itself (FIPS 180-4),
      written out below on 32-bit words held in [Z].
    - [str(datetime.now())] is an input of the constructor: the caller of
      the model supplies the time stamp the clock would have given.
    - [print] is modelled by the sequence of messages a call prints, one
      constructor per [print] site; [render] gives colour and text.
    - The [while True] loop of [mine_block] runs on fuel.
    - [mining_time] (a wall-clock float, never read back by the engine) is
      left out. *)

From Stdlib Require Import ZArith String Ascii DecimalString.
From stdpp Require Import base tactics option list strings.

Local Open Scope string_scope.
Local Open Scope list_scope.
Local Open Scope Z_scope.

(** ** Python strings *)

Module pystr.

(** [str(n)] for an [int]. *)
Definition of_int (n : Z) : string := NilZero.string_of_int (Z.to_int n).

(** [c * n] for a one-character string [c]: empty when [n <= 0]. *)
Definition times (c : ascii) (n : Z) : string :=
  string_of_list_ascii (replicate (Z.to_nat n) c).

(** [s.startswith(p)]. *)
Fixpoint startswith (s p : string) {struct p} : bool :=
  match p, s with
  | EmptyString, _ => true
  | String _ _, EmptyString => false
  | String a p', String b s' => if Ascii.eqb a b then startswith s' p' else false
  end.

(** [needle in hay]: [needle] starts at some position of [hay]. *)
Fixpoint contains (needle hay : string) : bool :=
  startswith hay needle ||
  match hay with
  | EmptyString => false
  | String _ hay' => contains needle hay'
  end.

Definition lower_char (c : ascii) : ascii :=
  let n := nat_of_ascii c in
  if (65 <=? n)%nat && (n <=? 90)%nat then ascii_of_nat (n + 32) else c.

(** [s.lower()] on ASCII text. *)
Fixpoint lower (s : string) : string :=
  match s with
  | EmptyString => EmptyString
  | String c s' => String (lower_char c) (lower s')
  end.

(** [f"{v}"] for a value that is [None] or a [str]. *)
Definition of_opt (v : option string) : string :=
  match v with
  | Some s => s
  | None => "None"
  end.

(** The number of ['0'] characters a string begins with. *)
Fixpoint leading_zeros (s : string) : nat :=
  match s with
  | String "0"%char s' => S (leading_zeros s')
  | _ => O
  end.

End pystr.

(** ** [hashlib.sha256] *)

Module hashlib.

Definition mask32 (x : Z) : Z := Z.land x 0xffffffff.
Definition add32 (x y : Z) : Z := mask32 (x + y).
Definition rotr (n x : Z) : Z :=
  Z.lor (Z.shiftr x n) (mask32 (Z.shiftl x (32 - n))).

Definition Ch (x y z : Z) : Z := Z.lxor (Z.land x y) (Z.land (Z.lnot x) z).
Definition Maj (x y z : Z) : Z :=
  Z.lxor (Z.lxor (Z.land x y) (Z.land x z)) (Z.land y z).
Definition Sigma0 (x : Z) : Z := Z.lxor (Z.lxor (rotr 2 x) (rotr 13 x)) (rotr 22 x).
Definition Sigma1 (x : Z) : Z := Z.lxor (Z.lxor (rotr 6 x) (rotr 11 x)) (rotr 25 x).
Definition sigma0 (x : Z) : Z := Z.lxor (Z.lxor (rotr 7 x) (rotr 18 x)) (Z.shiftr x 3).
Definition sigma1 (x : Z) : Z := Z.lxor (Z.lxor (rotr 17 x) (rotr 19 x)) (Z.shiftr x 10).

(** The round constants are not typed in but computed from what defines
    them: the first 32 bits of the fractional part of the cube root of each
    of the first 64 primes, and for the initial state the same of the
    square root of the first 8. *)
Definition is_prime (n : nat) : bool :=
  forallb (fun d => negb (n mod d =? 0)%nat) (seq 2 (n - 2)).

Definition primes : list Z :=
  Eval vm_compute in map Z.of_nat (List.filter is_prime (seq 2 310)).

(** The integer cube root, one bit after the other from bit 35 down. *)
Definition cbrt_step (n r : Z) (bit : nat) : Z :=
  let r' := r + 2 ^ Z.of_nat bit in
  if r' * r' * r' <=? n then r' else r.

Definition cbrt (n : Z) : Z := foldl (cbrt_step n) 0 (rev (seq 0 36)).

Definition K : list Z :=
  Eval vm_compute in map (fun p => mask32 (cbrt (p * 2 ^ 96))) primes.

Definition H0 : list Z :=
  Eval vm_compute in map (fun p => mask32 (Z.sqrt (p * 2 ^ 64))) (take 8 primes).

(** The message followed by the bit 1, zero bytes up to 56 modulo 64, and
    the bit length of the message on 8 bytes, most significant first. *)
Definition pad (msg : list Z) : list Z :=
  let len := Z.of_nat (length msg) in
  msg ++ [0x80] ++ replicate (Z.to_nat ((55 - len) mod 64)) 0
      ++ map (fun k => Z.land (Z.shiftr (8 * len) (8 * k)) 0xff)
             [7; 6; 5; 4; 3; 2; 1; 0].

Fixpoint words (bytes : list Z) : list Z :=
  match bytes with
  | a :: b :: c :: d :: rest =>
      Z.lor (Z.lor (Z.shiftl a 24) (Z.shiftl b 16)) (Z.lor (Z.shiftl c 8) d)
      :: words rest
  | _ => []
  end.

Fixpoint chunks (fuel : nat) (ws : list Z) : list (list Z) :=
  match fuel, ws with
  | S fuel', _ :: _ => take 16 ws :: chunks fuel' (drop 16 ws)
  | _, _ => []
  end.

(** The [n] next words of the message schedule; [w] holds the sixteen
    words from the current one on. *)
Fixpoint schedule (n : nat) (w : list Z) : list Z :=
  match n, w with
  | S n', w0 :: rest =>
      w0 :: schedule n'
              (rest ++ [add32 (add32 (sigma1 (nth 14 w 0)) (nth 9 w 0))
                              (add32 (sigma0 (nth 1 w 0)) w0)])
  | _, _ => []
  end.

Definition round (st : list Z) (kw : Z * Z) : list Z :=
  match st with
  | [a; b; c; d; e; f; g; h] =>
      let t1 := add32 (add32 (add32 h (Sigma1 e)) (Ch e f g))
                      (add32 (fst kw) (snd kw)) in
      let t2 := add32 (Sigma0 a) (Maj a b c) in
      [add32 t1 t2; a; b; c; add32 d t1; e; f; g]
  | _ => st
  end.

Definition compress (st block : list Z) : list Z :=
  zip_with add32 st (foldl round st (zip K (schedule 64 block))).

Definition hex_digit (n : Z) : ascii :=
  if n <? 10 then ascii_of_N (Z.to_N (48 + n)) else ascii_of_N (Z.to_N (87 + n)).

Definition hex_word (w : Z) : list ascii :=
  map (fun k => hex_digit (Z.land (Z.shiftr w k) 0xf)) [28; 24; 20; 16; 12; 8; 4; 0].

Definition sha256 (msg : list Z) : list Z :=
  let ws := words (pad msg) in
  foldl compress H0 (chunks (length ws) ws).

(** [hashlib.sha256(s.encode()).hexdigest()]. *)
Definition sha256_hexdigest (s : string) : string :=
  string_of_list_ascii
    (concat (map hex_word
       (sha256 (map (fun c => Z.of_N (N_of_ascii c)) (list_ascii_of_string s))))).

End hashlib.

(** ** The outcome of a call *)

Inductive exn : Type := IndexError.

(** A call returns a value, raises, or is still running when the fuel of
    the model is used up. *)
Inductive outcome (A : Type) : Type :=
| Returns (a : A)
| Raises (e : exn)
| OutOfFuel.
Arguments Returns {A} a.
Arguments Raises {A} e.
Arguments OutOfFuel {A}.

#[global] Instance outcome_ret : MRet outcome := fun A a => Returns a.
#[global] Instance outcome_bind : MBind outcome := fun A B k m =>
  match m with
  | Returns a => k a
  | Raises e => Raises e
  | OutOfFuel => OutOfFuel
  end.

(** [l[i]] for a position [i >= 0]. *)
Definition getitem {A : Type} (l : list A) (i : nat) : outcome A :=
  match l !! i with
  | Some x => Returns x
  | None => Raises IndexError
  end.

(** ** What the engine prints *)

Inductive Fore : Type := RED | GREEN | YELLOW | CYAN.

(** One constructor per [print] site of the modelled methods. *)
Inductive message : Type :=
| InvalidHash (i : nat) (stored : option string) (calculated : string)
| InvalidPreviousHash (i : nat) (stored expected : option string)
| BlockValid (i : nat)
| Found (index : Z) (data : string)
| KeywordNotFound
| Tampered (index : Z)
| CannotTamper.

Definition render (m : message) : Fore * string :=
  match m with
  | InvalidHash i stored calculated =>
      (RED, "[Block " ++ pystr.of_int (Z.of_nat i) ++ "] Invalid hash! Stored: "
            ++ pystr.of_opt stored ++ ", Calculated: " ++ calculated)
  | InvalidPreviousHash i stored expected =>
      (RED, "[Block " ++ pystr.of_int (Z.of_nat i)
            ++ "] Invalid previous hash! Stored: " ++ pystr.of_opt stored
            ++ ", Expected: " ++ pystr.of_opt expected)
  | BlockValid i => (GREEN, "[Block " ++ pystr.of_int (Z.of_nat i) ++ "] Valid.")
  | Found index data =>
      (GREEN, "Found in Block " ++ pystr.of_int index ++ ": " ++ data)
  | KeywordNotFound => (RED, "Keyword not found.")
  | Tampered index =>
      (RED, "Block " ++ pystr.of_int index ++ " has been tampered.")
  | CannotTamper => (YELLOW, "Cannot tamper Genesis block or out-of-range index.")
  end%string.

(** ** class BlockHeader *)

Module BlockHeader.

Record t : Type := {
  index : Z;
  timestamp : string;
  previous_hash : option string;
  nonce : Z;
  difficulty : Z;
  hash : option string   (* [None] until the block has been mined *)
}.

Definition init (index : Z) (timestamp : string) (previous_hash : option string)
    (difficulty : Z) : t :=
  {| index := index; timestamp := timestamp; previous_hash := previous_hash;
     nonce := 0; difficulty := difficulty; hash := None |}.

Definition set_nonce (n : Z) (h : t) : t :=
  {| index := index h; timestamp := timestamp h;
     previous_hash := previous_hash h; nonce := n;
     difficulty := difficulty h; hash := hash h |}.

Definition set_hash (v : option string) (h : t) : t :=
  {| index := index h; timestamp := timestamp h;
     previous_hash := previous_hash h; nonce := nonce h;
     difficulty := difficulty h; hash := v |}.

End BlockHeader.

(** ** class Block *)

Module Block.

Record t : Type := {
  header : BlockHeader.t;
  data : string
}.

Definition set_header (h : BlockHeader.t) (self : t) : t :=
  {| header := h; data := data self |}.

Definition set_data (d : string) (self : t) : t :=
  {| header := header self; data := d |}.

(** The text that is hashed: the fields one after the other, with nothing
    between them. *)
Definition content (self : t) : string :=
  (pystr.of_int (BlockHeader.index (header self))
   ++ BlockHeader.timestamp (header self)
   ++ data self
   ++ pystr.of_opt (BlockHeader.previous_hash (header self))
   ++ pystr.of_int (BlockHeader.nonce (header self)))%string.

Definition calculate_hash (self : t) : string :=
  hashlib.sha256_hexdigest (content self).

(** [self.header.nonce = n]. *)
Definition with_nonce (n : Z) (self : t) : t :=
  set_header (BlockHeader.set_nonce n (header self)) self.

(** [self.header.hash = v]. *)
Definition with_hash (v : option string) (self : t) : t :=
  set_header (BlockHeader.set_hash v (header self)) self.

(** The [while True] loop of [mine_block]: every turn hashes the block and
    either returns the hash or adds one to the nonce.  The block comes back
    with the nonce the loop stopped at. *)
Fixpoint mine_loop (fuel : nat) (prefix : string) (self : t) : outcome (t * string) :=
  match fuel with
  | O => OutOfFuel
  | S fuel' =>
      let hash_attempt := calculate_hash self in
      if pystr.startswith hash_attempt prefix then Returns (self, hash_attempt)
      else
        mine_loop fuel' prefix
          (with_nonce (BlockHeader.nonce (header self) + 1) self)
  end.

Definition mine_block (fuel : nat) (self : t) : outcome (t * string) :=
  let prefix := pystr.times "0" (BlockHeader.difficulty (header self)) in
  mine_loop fuel prefix self.

(** The block of [__init__] before it is mined. *)
Definition draft (index : Z) (data : string) (previous_hash : option string)
    (difficulty : Z) (timestamp : string) : t :=
  {| header := BlockHeader.init index timestamp previous_hash difficulty;
     data := data |}.

(** [Block(index, data, previous_hash, difficulty)], at the time [timestamp]. *)
Definition init (index : Z) (data : string) (previous_hash : option string)
    (difficulty : Z) (timestamp : string) (fuel : nat) : outcome t :=
  let self := draft index data previous_hash difficulty timestamp in
  '(self, mined) ← mine_block fuel self;
  mret (with_hash (Some mined) self).

End Block.

(** ** class Blockchain *)

Module Blockchain.

Record t : Type := {
  difficulty : Z;
  chain : list Block.t
}.

Definition create_genesis_block (difficulty : Z) (timestamp : string) (fuel : nat)
    : outcome Block.t :=
  Block.init 0 "Genesis Block" (Some "0"%string) difficulty timestamp fuel.

(** [Blockchain(difficulty)]. *)
Definition init (difficulty : Z) (timestamp : string) (fuel : nat) : outcome t :=
  genesis ← create_genesis_block difficulty timestamp fuel;
  mret {| difficulty := difficulty; chain := [genesis] |}.

(** [self.chain[-1]]. *)
Definition get_latest_block (self : t) : outcome Block.t :=
  match last (chain self) with
  | Some b => Returns b
  | None => Raises IndexError
  end.

Definition add_block (self : t) (data : string) (timestamp : string) (fuel : nat)
    : outcome t :=
  last_block ← get_latest_block self;
  new_block ← Block.init (Z.of_nat (length (chain self))) data
                 (BlockHeader.hash (Block.header last_block))
                 (difficulty self) timestamp fuel;
  mret {| difficulty := difficulty self; chain := chain self ++ [new_block] |}.

(** The body of the loop of [is_chain_valid], at position [i]; the state is
    the flag [valid] and what has been printed so far. *)
Definition check_block (chain : list Block.t) (st : bool * list message) (i : nat)
    : outcome (bool * list message) :=
  let '(valid, out) := st in
  current ← getitem chain i;
  previous ← getitem chain (i - 1);
  let recalculated_hash := Block.calculate_hash current in
  if bool_decide (BlockHeader.hash (Block.header current) ≠ Some recalculated_hash)
  then mret (false, out ++ [InvalidHash i (BlockHeader.hash (Block.header current))
                                        recalculated_hash])
  else if bool_decide (BlockHeader.previous_hash (Block.header current)
                       ≠ BlockHeader.hash (Block.header previous))
  then mret (false, out ++ [InvalidPreviousHash i
                              (BlockHeader.previous_hash (Block.header current))
                              (BlockHeader.hash (Block.header previous))])
  else mret (valid, out ++ [BlockValid i]).

(** [for i in range(1, len(self.chain))], threading the state through. *)
Fixpoint for_range (body : bool * list message → nat → outcome (bool * list message))
    (st : bool * list message) (range : list nat) : outcome (bool * list message) :=
  match range with
  | [] => mret st
  | i :: range' => st' ← body st i; for_range body st' range'
  end.

Definition is_chain_valid (self : t) : outcome (bool * list message) :=
  for_range (check_block (chain self)) (true, [])
            (seq 1 (length (chain self) - 1)).

(** [search_block]: the state of the loop is the flag [found] and the lines
    printed so far. *)
Definition search_step (keyword : string) (st : bool * list message) (block : Block.t)
    : bool * list message :=
  let '(found, out) := st in
  if pystr.contains (pystr.lower keyword) (pystr.lower (Block.data block))
  then (true, out ++ [Found (BlockHeader.index (Block.header block)) (Block.data block)])
  else (found, out).

Definition search_block (self : t) (keyword : string) : list message :=
  let '(found, out) := foldl (search_step keyword) (false, []) (chain self) in
  if negb found then out ++ [KeywordNotFound] else out.

(** [tamper_block]: the chain afterwards, and what was printed. *)
Definition tamper_block (self : t) (index : Z) : t * list message :=
  if (0 <? index) && (index <? Z.of_nat (length (chain self)))
  then ({| difficulty := difficulty self;
           chain := alter (Block.set_data "Tampered Data") (Z.to_nat index)
                          (chain self) |},
        [Tampered index])
  else (self, [CannotTamper]).

End Blockchain.

(** The call [self.tamper_block(index)] as its caller has it.  The method
    has no [raise] and no [return] statement, and its guard keeps the one
    subscript in range: on both branches the call comes back with [None],
    and what the caller is left with is the chain and the lines printed. *)
Definition tamper_block_call (self : Blockchain.t) (index : Z)
    : outcome (Blockchain.t * list message) :=
  Returns (Blockchain.tamper_block self index).

(** ** Chains that the engine builds *)

(** A chain is [built] when it comes from the constructor followed by
    [add_block] calls, each of which returned; nothing tampers with it. *)
Inductive built : Blockchain.t → Prop :=
| built_init difficulty timestamp fuel bc :
    Blockchain.init difficulty timestamp fuel = Returns bc →
    built bc
| built_add bc data timestamp fuel bc' :
    built bc →
    Blockchain.add_block bc data timestamp fuel = Returns bc' →
    built bc'.

(** ** A session with the engine

    [Blockchain(1)] at 10:00:00, then [add_block("Alice pays Bob 5")] and
    [add_block("Bob pays Carol 3")] one and two seconds later. *)

Module demo.

Definition t0 : string := "2025-01-01 10:00:00.000001".
Definition t1 : string := "2025-01-01 10:00:01.000002".
Definition t2 : string := "2025-01-01 10:00:02.000003".

Definition block (index : Z) (timestamp : string) (previous_hash : string)
    (nonce : Z) (hash : string) (data : string) : Block.t :=
  {| Block.header :=
       {| BlockHeader.index := index; BlockHeader.timestamp := timestamp;
          BlockHeader.previous_hash := Some previous_hash;
          BlockHeader.nonce := nonce; BlockHeader.difficulty := 1;
          BlockHeader.hash := Some hash |};
     Block.data := data |}.

Definition h0 : string :=
  "07201391f01f7c3bfb81b3daf13bcf8f0a63136f15a65b75f702872816e640d4".
Definition h1 : string :=
  "0305afb6ae767a314d10f3110a56f88aa999c43695a622e61fa7aa6409a3c92c".
Definition h2 : string :=
  "0cc9aeb167822c147eab632f4b03493600a9c8edaa7dba93c979e53e9412ff4e".

Definition genesis : Block.t := block 0 t0 "0" 13 h0 "Genesis Block".
Definition alice : Block.t := block 1 t1 h0 8 h1 "Alice pays Bob 5".
Definition bob : Block.t := block 2 t2 h1 13 h2 "Bob pays Carol 3".

Definition fresh : Blockchain.t :=
  {| Blockchain.difficulty := 1; Blockchain.chain := [genesis] |}.

Definition ledger : Blockchain.t :=
  {| Blockchain.difficulty := 1; Blockchain.chain := [genesis; alice; bob] |}.

(** The same session when the first payload typed in is the text
    [Tampered Data]. *)
Definition marker : Block.t :=
  block 1 t1 h0 25
    "0539aa00f99b577a83cc8d11d545b2530d27350f60a9e0dd5dd80b09dacc2792"
    "Tampered Data".

Definition marked : Blockchain.t :=
  {| Blockchain.difficulty := 1; Blockchain.chain := [genesis; marker] |}.

(** [ledger] after its genesis block was rewritten behind the engine's
    back: [chain[0].data = "Nobody owes anything"]. *)
Definition forged_genesis : Blockchain.t :=
  {| Blockchain.difficulty := 1;
     Blockchain.chain :=
       [Block.set_data "Nobody owes anything" genesis; alice; bob] |}.

(** [ledger] after block 1 lost both its payload and its link:
    [chain[1].data = "Alice pays Bob 500"] and
    [chain[1].header.previous_hash = "0"]. *)
Definition twice_broken : Blockchain.t :=
  {| Blockchain.difficulty := 1;
     Blockchain.chain :=
       [genesis; block 1 t1 "0" 8 h1 "Alice pays Bob 500"; bob] |}.

End demo.

(** ** Vocabulary of the statements *)

(** What the validator prints for the block [current] at position [i], whose
    predecessor in the list is [previous]. *)
Definition verdict (i : nat) (current previous : Block.t) : message :=
  let stored := BlockHeader.hash (Block.header current) in
  let link := BlockHeader.previous_hash (Block.header current) in
  if bool_decide (stored = Some (Block.calculate_hash current)) then
    if bool_decide (link = BlockHeader.hash (Block.header previous))
    then BlockValid i
    else InvalidPreviousHash i link (BlockHeader.hash (Block.header previous))
  else InvalidHash i stored (Block.calculate_hash current).

Definition report (chain : list Block.t) (i : nat) : option message :=
  current ← chain !! i;
  previous ← chain !! (i - 1)%nat;
  Some (verdict i current previous).

(** The stored hash of a block is the hash of its present fields. *)
Definition sealed (b : Block.t) : Prop :=
  BlockHeader.hash (Block.header b) = Some (Block.calculate_hash b).

(** The block points at the stored hash of [previous]. *)
Definition linked (b previous : Block.t) : Prop :=
  BlockHeader.previous_hash (Block.header b)
  = BlockHeader.hash (Block.header previous).

#[global] Instance sealed_dec (b : Block.t) : Decision (sealed b).
Proof. unfold sealed. apply _. Defined.

#[global] Instance linked_dec (b previous : Block.t) : Decision (linked b previous).
Proof. unfold linked. apply _. Defined.

(** The two checks of position [i], as a boolean. *)
Definition passes (chain : list Block.t) (i : nat) : bool :=
  match chain !! i, chain !! (i - 1)%nat with
  | Some current, Some previous =>
      bool_decide (sealed current) && bool_decide (linked current previous)
  | _, _ => false
  end.

(** What the constructor and [add_block] establish, and keep, on a chain. *)
Record well_formed (self : Blockchain.t) : Prop := {
  wf_genesis : ∃ g, Blockchain.chain self !! 0%nat = Some g
      ∧ Block.data g = "Genesis Block"
      ∧ BlockHeader.previous_hash (Block.header g) = Some "0"%string;
  wf_header : ∀ i b, Blockchain.chain self !! i = Some b →
      BlockHeader.index (Block.header b) = Z.of_nat i
      ∧ BlockHeader.difficulty (Block.header b) = Blockchain.difficulty self;
  wf_sealed : ∀ i b, Blockchain.chain self !! i = Some b →
      sealed b
      ∧ (Z.to_nat (Blockchain.difficulty self)
         ≤ pystr.leading_zeros (Block.calculate_hash b))%nat;
  wf_linked : ∀ i b previous, Blockchain.chain self !! S i = Some b →
      Blockchain.chain self !! i = Some previous → linked b previous
}.

(** The blocks [search_block] has to find, in the order of the chain, and
    the line it prints for each. *)
Definition hit (keyword : string) (block : Block.t) : bool :=
  pystr.contains (pystr.lower keyword) (pystr.lower (Block.data block)).

Definition found_line (block : Block.t) : message :=
  Found (BlockHeader.index (Block.header block)) (Block.data block).

(** [keyword] occurs in [text] when letter case is ignored. *)
Definition occurs_in (keyword text : string) : Prop :=
  ∃ before after : string,
    pystr.lower text = (before ++ pystr.lower keyword ++ after)%string.

(** ** The engine in use *)

(** One call that can change the chain: [add_block] when it returns, or
    [tamper_block] with any index. *)
Inductive step : Blockchain.t → Blockchain.t → Prop :=
| step_add self data timestamp fuel bc :
    Blockchain.add_block self data timestamp fuel = Returns bc →
    step self bc
| step_tamper self index :
    step self (Blockchain.tamper_block self index).1.

(** A chain in use: made by the constructor, then changed by such calls in
    any order. *)
Inductive operated : Blockchain.t → Prop :=
| operated_init difficulty timestamp fuel bc :
    Blockchain.init difficulty timestamp fuel = Returns bc →
    operated bc
| operated_step bc bc' :
    operated bc → step bc bc' → operated bc'.

(** [later bc bc']: [bc'] is [bc] after any number of such calls. *)
Inductive later : Blockchain.t → Blockchain.t → Prop :=
| later_now bc : later bc bc
| later_step bc bc' bc'' : later bc bc' → step bc' bc'' → later bc bc''.

(** What every call keeps on a chain in use: tampering leaves the headers
    alone, so all of [well_formed] stays but the seal of the blocks that now
    hold the marker. *)
Record kept (self : Blockchain.t) : Prop := {
  kept_genesis : ∃ g, Blockchain.chain self !! 0%nat = Some g
      ∧ Block.data g = "Genesis Block"
      ∧ BlockHeader.previous_hash (Block.header g) = Some "0"%string
      ∧ sealed g;
  kept_header : ∀ i b, Blockchain.chain self !! i = Some b →
      BlockHeader.index (Block.header b) = Z.of_nat i
      ∧ BlockHeader.difficulty (Block.header b) = Blockchain.difficulty self
      ∧ ∃ h, BlockHeader.hash (Block.header b) = Some h
           ∧ (Z.to_nat (Blockchain.difficulty self) ≤ pystr.leading_zeros h)%nat;
  kept_sealed : ∀ i b, Blockchain.chain self !! i = Some b →
      sealed b ∨ Block.data b = "Tampered Data";
  kept_linked : ∀ i b previous, Blockchain.chain self !! S i = Some b →
      Blockchain.chain self !! i = Some previous → linked b previous
}.

(** A lower-case hexadecimal digit. *)
Definition is_lower_hex (c : ascii) : bool :=
  let n := nat_of_ascii c in
  ((48 <=? n)%nat && (n <=? 57)%nat) || ((97 <=? n)%nat && (n <=? 102)%nat).

(** What [is_chain_valid] reads of a block: the text that is hashed, the
    stored hash and the previous hash. *)
Definition view (b : Block.t) : string * option string * option string :=
  (Block.content b, BlockHeader.hash (Block.header b),
   BlockHeader.previous_hash (Block.header b)).

(** [self.header.difficulty = d], which no method of the engine does. *)
Definition relabel (d : Z) (b : Block.t) : Block.t :=
  {| Block.header :=
       {| BlockHeader.index := BlockHeader.index (Block.header b);
          BlockHeader.timestamp := BlockHeader.timestamp (Block.header b);
          BlockHeader.previous_hash := BlockHeader.previous_hash (Block.header b);
          BlockHeader.nonce := BlockHeader.nonce (Block.header b);
          BlockHeader.difficulty := d;
          BlockHeader.hash := BlockHeader.hash (Block.header b) |};
     Block.data := Block.data b |}.

(** ** White space: [str.strip] *)

Module pyspace.

(** [c.isspace()] for an ASCII character: tab to carriage return, the four
    separators 28 to 31, and the space. *)
Definition isspace (c : ascii) : bool :=
  let n := nat_of_ascii c in
  ((9 <=? n)%nat && (n <=? 13)%nat) || ((28 <=? n)%nat && (n <=? 32)%nat).

(** [s.lstrip()]. *)
Fixpoint lstrip (s : string) : string :=
  match s with
  | EmptyString => EmptyString
  | String c s' => if isspace c then lstrip s' else s
  end.

(** [s.rstrip()]. *)
Fixpoint rstrip (s : string) : string :=
  match s with
  | EmptyString => EmptyString
  | String c s' =>
      match rstrip s' with
      | EmptyString => if isspace c then EmptyString else String c EmptyString
      | r => String c r
      end
  end.

(** [s.strip()]. *)
Definition strip (s : string) : string := rstrip (lstrip s).

(** No character of [s] but white space. *)
Definition blank (s : string) : Prop :=
  Forall (fun c => isspace c = true) (list_ascii_of_string s).

End pyspace.

(** ** [blockchain_app.py]

    One run of the script is one call of the function of the action chosen
    in the side bar, with the values of its widgets as arguments: the text
    typed in, the entry picked in the select box, and whether the button was
    pressed.  What comes back is the chain of the session, the lines the
    engine printed, and the [st.success], [st.warning] and [st.error] boxes
    shown; titles and input widgets are not kept. *)

Module app.

Inductive box : Type :=
| success (text : string)
| warning (text : string)
| error (text : string).

(** Action [Add Block]. *)
Definition add_block_action (blockchain : Blockchain.t) (data : string)
    (button : bool) (timestamp : string) (fuel : nat)
    : outcome (Blockchain.t * list box) :=
  if button then
    if String.eqb (pyspace.strip data) "" then
      mret (blockchain, [warning "Please enter data before mining."])
    else
      blockchain' ← Blockchain.add_block blockchain data timestamp fuel;
      mret (blockchain', [success "New block successfully mined and added."])
  else mret (blockchain, []).

(** Action [Search Blockchain]: the loop of the script, which is not a call
    of [search_block]. *)
Definition search_step (keyword : string) (st : bool * list box) (block : Block.t)
    : bool * list box :=
  let '(found, shown) := st in
  if pystr.contains (pystr.lower keyword) (pystr.lower (Block.data block))
  then (true, shown ++ [success ("Found in Block "
                                 ++ pystr.of_int (BlockHeader.index (Block.header block))
                                 ++ ": " ++ Block.data block)%string])
  else (found, shown).

Definition search_action (blockchain : Blockchain.t) (keyword : string)
    (button : bool) : list box :=
  if button then
    let '(found, shown) :=
      foldl (search_step keyword) (false, []) (Blockchain.chain blockchain) in
    if negb found then shown ++ [error "Keyword not found in any block."]
    else shown
  else [].

(** Action [Check Chain Integrity]: what the engine prints and what is shown. *)
Definition integrity_action (blockchain : Blockchain.t)
    : outcome (list message * list box) :=
  result ← Blockchain.is_chain_valid blockchain;
  let '(is_valid, printed) := (result : bool * list message) in
  if is_valid then Returns (printed, [success "Blockchain is valid."])
  else Returns (printed, [error "Blockchain integrity is broken."]).

(** Action [Tamper with Block]; [tamper_index] is the entry picked in the
    select box, whose entries are [range(len(blockchain.chain))]. *)
Definition tamper_action (blockchain : Blockchain.t) (tamper_index : Z)
    (button : bool) : Blockchain.t * list message * list box :=
  if tamper_index =? 0 then
    (blockchain, [], [warning "Genesis block cannot be tampered."])
  else if button then
    let '(blockchain', printed) := Blockchain.tamper_block blockchain tamper_index in
    (blockchain', printed,
     [warning ("Block " ++ pystr.of_int tamper_index
               ++ " has been modified for testing purposes.")%string])
  else (blockchain, [], []).

(** The chains a session of the application goes through: it starts with
    [Blockchain(difficulty=3)] and goes on by the two actions that can
    change the chain. *)
Inductive session : Blockchain.t → Prop :=
| session_start timestamp fuel bc :
    Blockchain.init 3 timestamp fuel = Returns bc →
    session bc
| session_add bc data button timestamp fuel bc' shown :
    session bc →
    add_block_action bc data button timestamp fuel = Returns (bc', shown) →
    session bc'
| session_tamper bc tamper_index button :
    session bc →
    0 ≤ tamper_index < Z.of_nat (length (Blockchain.chain bc)) →
    session (tamper_action bc tamper_index button).1.1.

End app.

(** ** A session with the application

    The script starts the chain at difficulty 3; the user then adds a block
    with the text [Alice pays Bob 5]. *)

Module demo3.

Definition t0 : string := "2025-01-01 10:00:00.000017".
Definition t1 : string := "2025-01-01 10:00:07.000256".

Definition h0 : string :=
  "0006a5ceb7e1453d1b231d366a73f6420c0c9f17c35cd3aaf0ac6d3c3a367256".
Definition h1 : string :=
  "000fad5b6a73af674c013c057678a1ea57d7e2ad54f6aeadfd777d53d27fa819".

Definition block (index : Z) (timestamp : string) (previous_hash : string)
    (nonce : Z) (hash : string) (data : string) : Block.t :=
  {| Block.header :=
       {| BlockHeader.index := index; BlockHeader.timestamp := timestamp;
          BlockHeader.previous_hash := Some previous_hash;
          BlockHeader.nonce := nonce; BlockHeader.difficulty := 3;
          BlockHeader.hash := Some hash |};
     Block.data := data |}.

Definition started : Blockchain.t :=
  {| Blockchain.difficulty := 3;
     Blockchain.chain := [block 0 t0 "0" 7 h0 "Genesis Block"] |}.

Definition added : Blockchain.t :=
  {| Blockchain.difficulty := 3;
     Blockchain.chain := [block 0 t0 "0" 7 h0 "Genesis Block";
                          block 1 t1 h0 6 h1 "Alice pays Bob 5"] |}.

End demo3.

(** * Properties *)


Example sha256_constants :
  length hashlib.K = 64%nat
  ∧ hashlib.K !! 0%nat = Some 0x428a2f98 ∧ hashlib.K !! 63%nat = Some 0xc67178f2
  ∧ hashlib.H0 !! 0%nat = Some 0x6a09e667 ∧ hashlib.H0 !! 7%nat = Some 0x5be0cd19.
Proof. repeat split. Qed.

Example sha256_empty :
  hashlib.sha256_hexdigest "" =
  "e3b0c44298fc1c149afbf4c8996fb92427ae41e4649b934ca495991b7852b855".
Proof. vm_compute. reflexivity. Qed.

Example sha256_abc :
  hashlib.sha256_hexdigest "abc" =
  "ba7816bf8f01cfea414140de5dae2223b00361a396177a9cb410ff61f20015ad".
Proof. vm_compute. reflexivity. Qed.

Example sha256_two_blocks :
  hashlib.sha256_hexdigest
    "abcdbcdecdefdefgefghfghighijhijkijkljklmklmnlmnomnopnopq" =
  "248d6a61d20638b8e5c026930c3e6039a33ce45964ff2167f6ecedd419db06c1".
Proof. vm_compute. reflexivity. Qed.

(** ** Strings *)

Section Strings.

Implicit Types s p t : string.

Lemma startswith_spec s p :
  pystr.startswith s p = true ↔ ∃ rest, s = (p ++ rest)%string.
Proof.
  revert s. induction p as [|a p IH]; intros s; simpl.
  - split; [intros _; by exists s | done].
  - destruct s as [|b s].
    + split; [done | intros [rest Hrest]; discriminate].
    + destruct (Ascii.eqb_spec a b) as [->|Hab].
      * rewrite IH. split; intros [rest Hrest]; exists rest.
        -- by rewrite Hrest.
        -- by injection Hrest.
      * split; [done | intros [rest Hrest]; injection Hrest; congruence].
Qed.

Lemma contains_spec needle hay :
  pystr.contains needle hay = true
  ↔ ∃ before after, hay = (before ++ needle ++ after)%string.
Proof.
  induction hay as [|c hay IH]; simpl.
  - rewrite orb_false_r, startswith_spec. split.
    + intros [rest Hrest]. by exists EmptyString, rest.
    + intros [[|b before] [after Heq]]; [by exists after | discriminate].
  - rewrite orb_true_iff, startswith_spec, IH. split.
    + intros [[rest Hrest] | (before & after & Heq)].
      * by exists EmptyString, rest.
      * exists (String c before), after. simpl. by rewrite Heq.
    + intros [[|b before] [after Heq]].
      * left. by exists after.
      * right. exists before, after. simpl in Heq. by injection Heq.
Qed.

Lemma startswith_zeros s (d : Z) :
  pystr.startswith s (pystr.times "0" d) = true
  ↔ (Z.to_nat d ≤ pystr.leading_zeros s)%nat.
Proof.
  unfold pystr.times. generalize (Z.to_nat d) as n. clear d.
  intros n. revert s. induction n as [|n IH]; intros s.
  - simpl. split; [lia | done].
  - cbn [replicate string_of_list_ascii pystr.startswith].
    destruct s as [|b s]; [simpl; split; [done | lia]|].
    destruct (Ascii.eqb_spec "0"%char b) as [<-|Hb].
    + rewrite IH. simpl. lia.
    + split; [done|]. intros Hle. exfalso.
      destruct b as [[] [] [] [] [] [] [] []]; simpl in Hle; try lia.
      by apply Hb.
Qed.

End Strings.

(** ** The validator *)

Section Validator.

Implicit Types (chain : list Block.t) (out : list message).

Lemma check_block_eq chain valid out i current previous :
  chain !! i = Some current →
  chain !! (i - 1)%nat = Some previous →
  Blockchain.check_block chain (valid, out) i
  = Returns (valid && passes chain i, out ++ [verdict i current previous]).
Proof.
  intros Hcur Hprev.
  unfold Blockchain.check_block, getitem, passes, verdict, sealed, linked.
  rewrite Hcur, Hprev. simpl.
  repeat case_bool_decide; simpl; try done;
    rewrite ?andb_false_r, ?andb_true_r; reflexivity.
Qed.

Lemma report_Some chain i :
  (1 ≤ i < length chain)%nat →
  ∃ current previous,
    chain !! i = Some current ∧ chain !! (i - 1)%nat = Some previous
    ∧ report chain i = Some (verdict i current previous).
Proof.
  intros Hi.
  destruct (lookup_lt_is_Some_2 chain i) as [current Hcur]; [lia|].
  destruct (lookup_lt_is_Some_2 chain (i - 1)) as [previous Hprev]; [lia|].
  exists current, previous. unfold report. by rewrite Hcur, Hprev.
Qed.

Lemma for_range_check chain n : ∀ i valid out,
  (1 ≤ i)%nat → (i + n ≤ length chain)%nat →
  Blockchain.for_range (Blockchain.check_block chain) (valid, out) (seq i n)
  = Returns (valid && forallb (passes chain) (seq i n),
             out ++ omap (report chain) (seq i n)).
Proof.
  induction n as [|n IH]; intros i valid out Hi Hlen.
  - simpl. by rewrite andb_true_r, app_nil_r.
  - destruct (report_Some chain i) as (current & previous & Hcur & Hprev & Hrep);
      [lia|].
    cbn [seq Blockchain.for_range forallb omap list_omap].
    rewrite (check_block_eq _ _ _ _ _ _ Hcur Hprev), Hrep.
    cbn [mbind outcome_bind]. rewrite IH by lia.
    by rewrite andb_assoc, <- app_assoc.
Qed.

Lemma is_chain_valid_eq (self : Blockchain.t) :
  let chain := Blockchain.chain self in
  Blockchain.is_chain_valid self
  = Returns (forallb (passes chain) (seq 1 (length chain - 1)),
             omap (report chain) (seq 1 (length chain - 1))).
Proof.
  simpl. unfold Blockchain.is_chain_valid.
  destruct (Blockchain.chain self) as [|g rest] eqn:Hchain; [done|].
  rewrite for_range_check; [done | lia | simpl; lia].
Qed.

Lemma reports_lookup chain (i : nat) :
  (1 ≤ i < length chain)%nat →
  omap (report chain) (seq 1 (length chain - 1)) !! (i - 1)%nat = report chain i.
Proof.
  intros Hi.
  assert (Hall : ∀ n k j, (1 ≤ k)%nat → (k + n ≤ length chain)%nat → (j < n)%nat →
            omap (report chain) (seq k n) !! j = report chain (k + j)).
  { induction n as [|n IH]; intros k j Hk Hkn Hj; [lia|]. simpl.
    destruct (report_Some chain k) as (c & p & _ & _ & Hrep); [lia|].
    rewrite Hrep. destruct j as [|j]; simpl.
    - by rewrite Nat.add_0_r.
    - rewrite IH by lia. f_equal. lia. }
  rewrite Hall by lia. f_equal. lia.
Qed.

Lemma reports_length chain :
  length (omap (report chain) (seq 1 (length chain - 1))) = (length chain - 1)%nat.
Proof.
  assert (Hall : ∀ n k, (1 ≤ k)%nat → (k + n ≤ length chain)%nat →
            length (omap (report chain) (seq k n)) = n).
  { induction n as [|n IH]; intros k Hk Hkn; [done|]. simpl.
    destruct (report_Some chain k) as (c & p & _ & _ & ->); [lia|].
    simpl. by rewrite IH by lia. }
  destruct chain as [|g rest]; [done|]. apply Hall; simpl; lia.
Qed.

Lemma passes_iff chain i current previous :
  chain !! i = Some current →
  chain !! (i - 1)%nat = Some previous →
  passes chain i = true ↔ sealed current ∧ linked current previous.
Proof.
  intros Hcur Hprev. unfold passes. rewrite Hcur, Hprev.
  by rewrite andb_true_iff, !bool_decide_eq_true.
Qed.

Lemma passes_all_iff chain :
  forallb (passes chain) (seq 1 (length chain - 1)) = true
  ↔ ∀ i current previous, (1 ≤ i)%nat →
      chain !! i = Some current → chain !! (i - 1)%nat = Some previous →
      sealed current ∧ linked current previous.
Proof.
  rewrite forallb_forall. split.
  - intros Hall i current previous Hi Hcur Hprev.
    apply (passes_iff chain i); [done..|].
    apply Hall, in_seq. apply lookup_lt_Some in Hcur. lia.
  - intros Hall i [Hi1 Hi2]%in_seq.
    destruct (report_Some chain i) as (current & previous & Hcur & Hprev & _);
      [lia|].
    apply (passes_iff chain i current previous); [done..|].
    apply (Hall i current previous); [lia | done..].
Qed.

Lemma reports_line chain i current previous :
  (1 ≤ i)%nat →
  chain !! i = Some current → chain !! (i - 1)%nat = Some previous →
  omap (report chain) (seq 1 (length chain - 1)) !! (i - 1)%nat
  = Some (verdict i current previous).
Proof.
  intros Hi Hcur Hprev.
  rewrite reports_lookup by (apply lookup_lt_Some in Hcur; lia).
  unfold report. by rewrite Hcur, Hprev.
Qed.

Lemma verdict_unsealed i current previous :
  ¬ sealed current →
  verdict i current previous
  = InvalidHash i (BlockHeader.hash (Block.header current))
                (Block.calculate_hash current).
Proof. intros Hopen. unfold verdict. by rewrite bool_decide_eq_false_2. Qed.

Lemma verdict_valid i current previous :
  sealed current → linked current previous →
  verdict i current previous = BlockValid i.
Proof. intros Hs Hl. unfold verdict. by rewrite !bool_decide_eq_true_2. Qed.

(** A block after the genesis block whose stored hash is stale: the flag is
    false and the line of that block says so. *)
Lemma unsealed_block_reported (self : Blockchain.t) i current :
  (1 ≤ i)%nat →
  Blockchain.chain self !! i = Some current →
  ¬ sealed current →
  ∃ out,
    Blockchain.is_chain_valid self = Returns (false, out)
    ∧ out = omap (report (Blockchain.chain self))
                 (seq 1 (length (Blockchain.chain self) - 1))
    ∧ out !! (i - 1)%nat
      = Some (InvalidHash i (BlockHeader.hash (Block.header current))
                          (Block.calculate_hash current)).
Proof.
  intros Hi Hcur Hopen. eexists. rewrite is_chain_valid_eq. cbn zeta.
  destruct (lookup_lt_is_Some_2 (Blockchain.chain self) (i - 1)) as [previous Hprev].
  { apply lookup_lt_Some in Hcur. lia. }
  split; [|split; [reflexivity|]].
  - destruct (forallb _ _) eqn:Hall; [|done]. exfalso.
    by destruct (proj1 (passes_all_iff _) Hall i current previous Hi Hcur Hprev).
  - rewrite (reports_line _ _ _ _ Hi Hcur Hprev). by rewrite verdict_unsealed.
Qed.

End Validator.

(** ** Mining *)

Section Mining.

Implicit Types (self : Block.t) (prefix mined : string).

Lemma calculate_hash_with_hash v self :
  Block.calculate_hash (Block.with_hash v self) = Block.calculate_hash self.
Proof. reflexivity. Qed.

Lemma with_nonce_same self :
  Block.with_nonce (BlockHeader.nonce (Block.header self)) self = self.
Proof. by destruct self as [[] ?]. Qed.

Lemma with_nonce_twice n m self :
  Block.with_nonce n (Block.with_nonce m self) = Block.with_nonce n self.
Proof. reflexivity. Qed.

(** Whatever the loop returns is the hash of the block it hands back, it
    has the prefix asked for, and only the nonce has moved, upwards. *)
Lemma mine_loop_returns fuel prefix : ∀ self self' mined,
  Block.mine_loop fuel prefix self = Returns (self', mined) →
  mined = Block.calculate_hash self'
  ∧ pystr.startswith mined prefix = true
  ∧ self' = Block.with_nonce (BlockHeader.nonce (Block.header self')) self
  ∧ BlockHeader.nonce (Block.header self) ≤ BlockHeader.nonce (Block.header self').
Proof.
  induction fuel as [|fuel IH]; intros self self' mined; [done|].
  cbn [Block.mine_loop].
  destruct (pystr.startswith (Block.calculate_hash self) prefix) eqn:Hhit.
  - intros [= <- <-]. by rewrite with_nonce_same.
  - intros Hrec. apply IH in Hrec as (Hmined & Hpre & Hself & Hle).
    rewrite with_nonce_twice in Hself. simpl in Hle. repeat split; [done..|lia].
Qed.

(** The loop stops at the first nonce that works. *)
Lemma mine_loop_first fuel prefix : ∀ self self' mined,
  Block.mine_loop fuel prefix self = Returns (self', mined) →
  ∀ n, BlockHeader.nonce (Block.header self) ≤ n
       < BlockHeader.nonce (Block.header self') →
    pystr.startswith (Block.calculate_hash (Block.with_nonce n self)) prefix = false.
Proof.
  induction fuel as [|fuel IH]; intros self self' mined; [done|].
  cbn [Block.mine_loop].
  destruct (pystr.startswith (Block.calculate_hash self) prefix) eqn:Hhit.
  - intros [= <- <-] n Hn. lia.
  - intros Hrec n Hn.
    destruct (decide (n = BlockHeader.nonce (Block.header self))) as [->|Hne].
    + by rewrite with_nonce_same.
    + rewrite <- (with_nonce_twice n (BlockHeader.nonce (Block.header self) + 1)).
      apply (IH _ _ _ Hrec). simpl. lia.
Qed.

(** Enough fuel: when some nonce [k] steps ahead works, the loop returns
    for every fuel above [k], and always with the same result. *)
Lemma mine_loop_enough_fuel prefix (k : nat) : ∀ self,
  pystr.startswith
    (Block.calculate_hash
       (Block.with_nonce (BlockHeader.nonce (Block.header self) + Z.of_nat k) self))
    prefix = true →
  ∃ self' mined, ∀ fuel, (k < fuel)%nat →
    Block.mine_loop fuel prefix self = Returns (self', mined).
Proof.
  induction k as [|k IH]; intros self Hk.
  - rewrite Z.add_0_r, with_nonce_same in Hk.
    exists self, (Block.calculate_hash self). intros [|fuel] Hfuel; [lia|].
    cbn [Block.mine_loop]. by rewrite Hk.
  - destruct (pystr.startswith (Block.calculate_hash self) prefix) eqn:Hhit.
    + exists self, (Block.calculate_hash self). intros [|fuel] Hfuel; [lia|].
      cbn [Block.mine_loop]. by rewrite Hhit.
    + destruct (IH (Block.with_nonce (BlockHeader.nonce (Block.header self) + 1) self))
        as (self' & mined & Hrun).
      { rewrite with_nonce_twice. simpl.
        by replace (BlockHeader.nonce (Block.header self) + 1 + Z.of_nat k)
          with (BlockHeader.nonce (Block.header self) + Z.of_nat (S k)) by lia. }
      exists self', mined. intros [|fuel] Hfuel; [lia|].
      cbn [Block.mine_loop]. rewrite Hhit. apply Hrun. lia.
Qed.

Lemma Block_init_returns index data previous_hash difficulty timestamp fuel b :
  Block.init index data previous_hash difficulty timestamp fuel = Returns b →
  ∃ n, 0 ≤ n
    ∧ b = Block.with_hash (Some (Block.calculate_hash b))
            (Block.with_nonce n
               (Block.draft index data previous_hash difficulty timestamp))
    ∧ (Z.to_nat difficulty ≤ pystr.leading_zeros (Block.calculate_hash b))%nat.
Proof.
  unfold Block.init, Block.mine_block.
  destruct (Block.mine_loop _ _ _) as [[self' mined]| |] eqn:Hmine; [|done..].
  cbn [mbind outcome_bind mret outcome_ret]. intros [= <-].
  apply mine_loop_returns in Hmine as (-> & Hpre & Hself & Hle).
  exists (BlockHeader.nonce (Block.header self')). split; [exact Hle|].
  rewrite calculate_hash_with_hash. split; [by rewrite <- Hself|].
  by apply startswith_zeros in Hpre.
Qed.

End Mining.

(** ** Building a chain *)

Section Building.

Implicit Types (self bc : Blockchain.t).

Lemma init_returns difficulty timestamp fuel bc :
  Blockchain.init difficulty timestamp fuel = Returns bc →
  ∃ g, Block.init 0 "Genesis Block" (Some "0"%string) difficulty timestamp fuel
       = Returns g
    ∧ bc = {| Blockchain.difficulty := difficulty; Blockchain.chain := [g] |}.
Proof.
  unfold Blockchain.init, Blockchain.create_genesis_block.
  destruct (Block.init _ _ _ _ _ _) as [g| |]; [|done..].
  intros [= <-]. by exists g.
Qed.

Lemma add_block_returns self data timestamp fuel bc :
  Blockchain.add_block self data timestamp fuel = Returns bc →
  ∃ tail new_block,
    last (Blockchain.chain self) = Some tail
    ∧ Block.init (Z.of_nat (length (Blockchain.chain self))) data
        (BlockHeader.hash (Block.header tail)) (Blockchain.difficulty self)
        timestamp fuel = Returns new_block
    ∧ bc = {| Blockchain.difficulty := Blockchain.difficulty self;
              Blockchain.chain := Blockchain.chain self ++ [new_block] |}.
Proof.
  unfold Blockchain.add_block, Blockchain.get_latest_block.
  destruct (last (Blockchain.chain self)) as [tail|]; [|done].
  cbn [mbind outcome_bind].
  destruct (Block.init _ _ _ _ _ _) as [new_block| |] eqn:Hnew; [|done..].
  intros [= <-]. by exists tail, new_block.
Qed.

Lemma init_well_formed difficulty timestamp fuel bc :
  Blockchain.init difficulty timestamp fuel = Returns bc → well_formed bc.
Proof.
  intros (g & Hg & ->)%init_returns.
  apply Block_init_returns in Hg as (n & Hn & Hg & Hzeros).
  split; cbn [Blockchain.chain Blockchain.difficulty].
  - exists g. by rewrite Hg.
  - intros [|i] b [=]; subst b. by rewrite Hg.
  - intros [|i] b [=]; subst b. split; [|done]. unfold sealed. by rewrite Hg at 1.
  - intros [|i] b previous [=].
Qed.

Lemma add_block_well_formed self data timestamp fuel bc :
  well_formed self →
  Blockchain.add_block self data timestamp fuel = Returns bc →
  well_formed bc.
Proof.
  intros [Hgen Hhead Hseal Hlink] (tail & b' & Htail & Hnew & ->)%add_block_returns.
  apply Block_init_returns in Hnew as (n & Hn & Hb' & Hzeros).
  rewrite last_lookup in Htail.
  split; cbn [Blockchain.chain Blockchain.difficulty].
  - destruct Hgen as (g & Hg & ?). exists g. split; [|done].
    by apply lookup_app_l_Some.
  - intros i b [Hi | [Hi [Hi0 <-]%list_lookup_singleton_Some]]%lookup_app_Some.
    + by apply Hhead.
    + rewrite Hb'. simpl. split; [f_equal; lia | done].
  - intros i b [Hi | [Hi [Hi0 <-]%list_lookup_singleton_Some]]%lookup_app_Some.
    + by apply (Hseal i).
    + split; [|done]. unfold sealed. by rewrite Hb' at 1.
  - intros i b previous Hb Hprev.
    apply lookup_app_Some in Hb as [Hb | [Hlen Hb]].
    + apply (Hlink i); [done|].
      apply lookup_app_Some in Hprev as [Hprev | [Hlen' _]]; [done|].
      apply lookup_lt_Some in Hb. lia.
    + apply list_lookup_singleton_Some in Hb as [Hi <-].
      assert (i = pred (length (Blockchain.chain self))) as -> by lia.
      rewrite lookup_app_l in Hprev by (apply lookup_lt_is_Some; eauto).
      rewrite Htail in Hprev. injection Hprev as <-.
      unfold linked. by rewrite Hb'.
Qed.

(** Enough fuel: [add_block] returns on a chain that is not empty as soon
    as some nonce makes the hash of the new block begin with the zeros
    asked for; at a difficulty of 0 or less the nonce 0 does. *)
Lemma add_block_enough_fuel self data timestamp tail (k : nat) :
  last (Blockchain.chain self) = Some tail →
  pystr.startswith
    (Block.calculate_hash
       (Block.with_nonce (Z.of_nat k)
          (Block.draft (Z.of_nat (length (Blockchain.chain self))) data
             (BlockHeader.hash (Block.header tail))
             (Blockchain.difficulty self) timestamp)))
    (pystr.times "0" (Blockchain.difficulty self)) = true →
  ∃ bc, ∀ fuel, (k < fuel)%nat →
    Blockchain.add_block self data timestamp fuel = Returns bc.
Proof.
  intros Htail Hk.
  destruct (mine_loop_enough_fuel _ k _ Hk) as (self' & mined & Hrun).
  eexists. intros fuel Hfuel.
  unfold Blockchain.add_block, Blockchain.get_latest_block. rewrite Htail.
  cbn [mbind outcome_bind]. unfold Block.init, Block.mine_block.
  cbn [Block.draft Block.header BlockHeader.init BlockHeader.difficulty].
  rewrite (Hrun fuel Hfuel). reflexivity.
Qed.

Lemma add_block_difficulty_zero self data timestamp fuel :
  Blockchain.chain self ≠ [] →
  Blockchain.difficulty self ≤ 0 →
  ∃ bc, Blockchain.add_block self data timestamp (S fuel) = Returns bc.
Proof.
  intros Hne Hd.
  destruct (last (Blockchain.chain self)) as [tail|] eqn:Htail.
  - destruct (add_block_enough_fuel self data timestamp tail 0 Htail) as [bc Hbc].
    + unfold pystr.times. by replace (Z.to_nat (Blockchain.difficulty self)) with 0%nat by lia.
    + exists bc. apply Hbc. lia.
  - by apply last_None in Htail.
Qed.

(** Every chain the engine builds is well formed. *)
Lemma built_well_formed bc : built bc → well_formed bc.
Proof.
  induction 1 as [difficulty timestamp fuel bc Hinit
                 | bc data timestamp fuel bc' _ IH Hadd].
  - by eapply init_well_formed.
  - by eapply add_block_well_formed.
Qed.

Lemma well_formed_passes self i :
  well_formed self → (1 ≤ i < length (Blockchain.chain self))%nat →
  passes (Blockchain.chain self) i = true
  ∧ report (Blockchain.chain self) i = Some (BlockValid i).
Proof.
  intros [_ _ Hseal Hlink] Hi.
  destruct (report_Some _ _ Hi) as (current & previous & Hcur & Hprev & Hrep).
  destruct (Hseal _ _ Hcur) as [Hsealed _].
  assert (Hlinked : linked current previous).
  { apply (Hlink (i - 1)%nat); [|done]. by replace (S (i - 1)) with i by lia. }
  split.
  - by apply (passes_iff _ _ _ _ Hcur Hprev).
  - rewrite Hrep. unfold verdict. fold (sealed current) (linked current previous).
    by rewrite !bool_decide_eq_true_2.
Qed.

End Building.

(** ** The session, run *)

Lemma demo_fresh_init : Blockchain.init 1 demo.t0 14 = Returns demo.fresh.
Proof. vm_compute. reflexivity. Qed.

Lemma demo_ledger_built : built demo.ledger.
Proof.
  apply (built_add {| Blockchain.difficulty := 1;
                      Blockchain.chain := [demo.genesis; demo.alice] |}
                   "Bob pays Carol 3" demo.t2 14).
  - apply (built_add demo.fresh "Alice pays Bob 5" demo.t1 9).
    + exact (built_init 1 demo.t0 14 _ demo_fresh_init).
    + vm_compute. reflexivity.
  - vm_compute. reflexivity.
Qed.

Lemma demo_marked_built : built demo.marked.
Proof.
  apply (built_add demo.fresh "Tampered Data" demo.t1 26).
  - exact (built_init 1 demo.t0 14 _ demo_fresh_init).
  - vm_compute. reflexivity.
Qed.

(** ** [is_chain_valid] *)

(** C1: [is_chain_valid] always returns; the flag it returns is true exactly
    when every block at a position [i] from 1 to [len(chain) - 1] has its
    stored hash equal to the hash of its present fields and its
    [previous_hash] equal to the stored hash of block [i - 1].  The loop
    goes over every one of these positions, whatever failed before: it
    prints one line for each, the line of that block's own checks, and the
    flag is the conjunction of the checks of all positions. *)
Theorem is_chain_valid_iff (self : Blockchain.t) :
  let chain := Blockchain.chain self in
  ∃ valid out,
    Blockchain.is_chain_valid self = Returns (valid, out)
    ∧ (valid = true ↔
       ∀ i current previous, (1 ≤ i)%nat →
         chain !! i = Some current → chain !! (i - 1)%nat = Some previous →
         BlockHeader.hash (Block.header current)
           = Some (Block.calculate_hash current)
         ∧ BlockHeader.previous_hash (Block.header current)
           = BlockHeader.hash (Block.header previous))
    ∧ valid = forallb (passes chain) (seq 1 (length chain - 1))
    ∧ length out = (length chain - 1)%nat
    ∧ ∀ i current previous, (1 ≤ i)%nat →
        chain !! i = Some current → chain !! (i - 1)%nat = Some previous →
        out !! (i - 1)%nat = Some (verdict i current previous).
Proof.
  intros chain. eexists _, _. split; [apply is_chain_valid_eq|]. fold chain.
  split; [apply passes_all_iff|]. split; [done|].
  split; [apply reports_length | apply reports_line].
Qed.

Lemma well_formed_range (self : Blockchain.t) (n : nat) : ∀ k,
  well_formed self → (1 ≤ k)%nat → (k + n ≤ length (Blockchain.chain self))%nat →
  forallb (passes (Blockchain.chain self)) (seq k n) = true
  ∧ omap (report (Blockchain.chain self)) (seq k n) = map BlockValid (seq k n).
Proof.
  induction n as [|n IH]; intros k Hwf Hk Hkn; [done|].
  destruct (well_formed_passes self k Hwf) as [Hpass Hrep]; [lia|].
  destruct (IH (S k) Hwf) as [Hpasses Hreps]; [lia..|].
  cbn [seq forallb omap list_omap map]. by rewrite Hpass, Hrep, Hpasses, Hreps.
Qed.

Lemma well_formed_valid (bc : Blockchain.t) :
  well_formed bc →
  Blockchain.is_chain_valid bc
  = Returns (true, map BlockValid (seq 1 (length (Blockchain.chain bc) - 1))).
Proof.
  intros Hwf. rewrite is_chain_valid_eq.
  destruct (well_formed_range bc (length (Blockchain.chain bc) - 1) 1 Hwf)
    as [-> ->]; [lia| |done].
  destruct Hwf as [(g & Hg & _) _ _ _]. apply lookup_lt_Some in Hg. lia.
Qed.

(** C2: a chain made by the constructor, at any difficulty, and then any
    number of [add_block] calls, with nothing tampering with it, is valid:
    [is_chain_valid] returns true, having printed [Valid] for each block
    after the genesis block. *)
Theorem built_chain_valid (bc : Blockchain.t) :
  built bc →
  Blockchain.is_chain_valid bc
  = Returns (true, map BlockValid (seq 1 (length (Blockchain.chain bc) - 1))).
Proof. intros Hbuilt. by apply well_formed_valid, built_well_formed. Qed.

Lemma built_chain_valid_witness :
  built demo.ledger
  ∧ Blockchain.is_chain_valid demo.ledger
    = Returns (true, [BlockValid 1; BlockValid 2]).
Proof.
  split; [exact demo_ledger_built|].
  exact (built_chain_valid demo.ledger demo_ledger_built).
Defined.

Lemma report_in chain (out : list message) (m : message) :
  out = omap (report chain) (seq 1 (length chain - 1)) →
  m ∈ out → ∃ i, (1 ≤ i < length chain)%nat ∧ report chain i = Some m.
Proof.
  intros -> (i & [Hi1 Hi2]%elem_of_seq & Hrep)%list_elem_of_omap.
  exists i. split; [lia | done].
Qed.

Lemma report_InvalidHash chain i j stored calculated :
  report chain i = Some (InvalidHash j stored calculated) →
  i = j ∧ ∃ current, chain !! i = Some current ∧ ¬ sealed current.
Proof.
  unfold report.
  destruct (chain !! i) as [current|]; [|done].
  destruct (chain !! (i - 1)%nat) as [previous|]; [|done].
  cbn. unfold verdict. repeat case_bool_decide; intros [=]; subst.
  split; [done|]. by exists current.
Qed.

Lemma report_InvalidPreviousHash chain i j stored expected :
  report chain i = Some (InvalidPreviousHash j stored expected) →
  i = j ∧ ∃ current, chain !! i = Some current ∧ sealed current.
Proof.
  unfold report.
  destruct (chain !! i) as [current|]; [|done].
  destruct (chain !! (i - 1)%nat) as [previous|]; [|done].
  cbn. unfold verdict. repeat case_bool_decide; intros [=]; subst.
  split; [done|]. by exists current.
Qed.

(** C10: when the stored hash of the block at position [i] is not the hash
    of its fields, the line printed for position [i] is the hash-mismatch
    line, whatever its [previous_hash] is, and no previous-hash line is
    printed for [i].  No position ever gets both lines: the hash check goes
    first and the link is compared only when it passes. *)
Theorem hash_check_goes_first (self : Blockchain.t) (i : nat) (current : Block.t) :
  (1 ≤ i)%nat →
  Blockchain.chain self !! i = Some current →
  BlockHeader.hash (Block.header current) ≠ Some (Block.calculate_hash current) →
  ∃ valid out,
    Blockchain.is_chain_valid self = Returns (valid, out)
    ∧ out !! (i - 1)%nat
      = Some (InvalidHash i (BlockHeader.hash (Block.header current))
                          (Block.calculate_hash current))
    ∧ (∀ stored expected, InvalidPreviousHash i stored expected ∉ out)
    ∧ ∀ j stored calculated stored' expected,
        InvalidHash j stored calculated ∈ out →
        InvalidPreviousHash j stored' expected ∉ out.
Proof.
  intros Hi Hcur Hbad. eexists _, _. split; [apply is_chain_valid_eq|].
  cbn zeta.
  assert (Hexcl : ∀ j stored calculated stored' expected,
    InvalidHash j stored calculated
      ∈ omap (report (Blockchain.chain self))
             (seq 1 (length (Blockchain.chain self) - 1)) →
    InvalidPreviousHash j stored' expected
      ∉ omap (report (Blockchain.chain self))
             (seq 1 (length (Blockchain.chain self) - 1))).
  { intros j stored calculated stored' expected Hin Hin'.
    apply (report_in _ _ _ eq_refl) in Hin as (k & _ & Hk).
    apply (report_in _ _ _ eq_refl) in Hin' as (k' & _ & Hk').
    apply report_InvalidHash in Hk as (-> & b & Hb & Hopen).
    apply report_InvalidPreviousHash in Hk' as (-> & b' & Hb' & Hshut).
    congruence. }
  assert (Hline : omap (report (Blockchain.chain self))
                    (seq 1 (length (Blockchain.chain self) - 1)) !! (i - 1)%nat
                  = Some (InvalidHash i (BlockHeader.hash (Block.header current))
                                      (Block.calculate_hash current))).
  { rewrite reports_lookup by (apply lookup_lt_Some in Hcur; lia).
    destruct (report_Some (Blockchain.chain self) i)
      as (c & previous & Hc & _ & ->); [apply lookup_lt_Some in Hcur; lia|].
    assert (c = current) as -> by congruence.
    unfold verdict. by rewrite bool_decide_eq_false_2. }
  split; [exact Hline|]. split; [|exact Hexcl].
  intros stored expected. eapply Hexcl.
  eapply list_elem_of_lookup_2, Hline.
Qed.

Lemma hash_check_goes_first_witness :
  (1 ≤ 1)%nat
  ∧ Blockchain.chain demo.twice_broken !! 1%nat
    = Some (demo.block 1 demo.t1 "0" 8 demo.h1 "Alice pays Bob 500")
  ∧ ∃ valid out,
      Blockchain.is_chain_valid demo.twice_broken = Returns (valid, out)
      ∧ out !! 0%nat
        = Some (InvalidHash 1 (Some demo.h1)
                  "a1f200325130c2947391457555ddc7053aff6e63421cde5e71265e5f0c82c505")
      ∧ (∀ stored expected, InvalidPreviousHash 1 stored expected ∉ out)
      ∧ ∀ j stored calculated stored' expected,
          InvalidHash j stored calculated ∈ out →
          InvalidPreviousHash j stored' expected ∉ out.
Proof.
  split; [lia|]. split; [reflexivity|].
  refine (hash_check_goes_first demo.twice_broken 1 _ _ eq_refl _);
    [lia | vm_compute; discriminate].
Defined.

(** C9, as the code has it: the loop starts at position 1, so the hash of
    every block but the genesis block is recomputed from the block's
    present fields.  A block at a position [i >= 1] whose stored hash is no
    longer the hash of its fields makes [is_chain_valid] return false and
    print the hash-mismatch line for [i]. *)
Theorem is_chain_valid_rehashes_after_genesis
    (self : Blockchain.t) (i : nat) (b : Block.t) :
  (1 ≤ i)%nat →
  Blockchain.chain self !! i = Some b →
  BlockHeader.hash (Block.header b) ≠ Some (Block.calculate_hash b) →
  ∃ out,
    Blockchain.is_chain_valid self = Returns (false, out)
    ∧ out !! (i - 1)%nat
      = Some (InvalidHash i (BlockHeader.hash (Block.header b))
                          (Block.calculate_hash b)).
Proof.
  intros Hi Hb Hbad.
  destruct (unsealed_block_reported self i b Hi Hb Hbad) as (out & Hrun & _ & Hline).
  by exists out.
Qed.

Lemma is_chain_valid_rehashes_after_genesis_witness :
  (1 ≤ 1)%nat
  ∧ Blockchain.chain (Blockchain.tamper_block demo.ledger 1).1 !! 1%nat
    = Some (Block.set_data "Tampered Data" demo.alice)
  ∧ ∃ out,
      Blockchain.is_chain_valid (Blockchain.tamper_block demo.ledger 1).1
      = Returns (false, out)
      ∧ out !! 0%nat
        = Some (InvalidHash 1 (Some demo.h1)
                  "2e74c8b02884716082b49954360526612e05fbf46bc92983ef2c6810f1464c9e").
Proof.
  split; [lia|]. split; [reflexivity|].
  refine (is_chain_valid_rehashes_after_genesis
            (Blockchain.tamper_block demo.ledger 1).1 1
            (Block.set_data "Tampered Data" demo.alice) _ eq_refl _);
    [lia | vm_compute; discriminate].
Defined.

(** C9, as stated, fails at the genesis block: in the session's chain with
    the data of block 0 overwritten, the stored hash of block 0 is not the
    hash of its fields, and [is_chain_valid] still returns true and prints
    no mismatch. *)
Lemma genesis_is_not_rehashed :
  built demo.ledger
  ∧ Blockchain.chain demo.forged_genesis
    = alter (Block.set_data "Nobody owes anything") 0%nat
            (Blockchain.chain demo.ledger)
  ∧ (∃ g, Blockchain.chain demo.forged_genesis !! 0%nat = Some g
          ∧ BlockHeader.hash (Block.header g) ≠ Some (Block.calculate_hash g))
  ∧ Blockchain.is_chain_valid demo.forged_genesis
    = Returns (true, [BlockValid 1; BlockValid 2]).
Proof.
  split; [exact demo_ledger_built|]. split; [reflexivity|]. split.
  - eexists. split; [reflexivity|]. vm_compute. discriminate.
  - vm_compute. reflexivity.
Qed.

(** The validator never reads the data of block 0: overwriting it changes
    neither the flag nor the lines printed. *)
Lemma is_chain_valid_ignores_genesis_data (self : Blockchain.t) (data : string) :
  Blockchain.is_chain_valid
    {| Blockchain.difficulty := Blockchain.difficulty self;
       Blockchain.chain := alter (Block.set_data data) 0%nat (Blockchain.chain self) |}
  = Blockchain.is_chain_valid self.
Proof.
  rewrite !is_chain_valid_eq. cbn [Blockchain.chain]. rewrite length_alter.
  set (chain := Blockchain.chain self).
  assert (Hsame : ∀ i, (1 ≤ i)%nat →
            report (alter (Block.set_data data) 0%nat chain) i = report chain i
            ∧ passes (alter (Block.set_data data) 0%nat chain) i = passes chain i).
  { intros i Hi. unfold report, passes.
    rewrite (list_lookup_alter_ne _ _ 0 i) by lia.
    destruct (chain !! i) as [current|]; [|done].
    destruct (decide (i - 1 = 0)%nat) as [->|Hne].
    - rewrite list_lookup_alter_eq.
      by destruct (chain !! 0%nat) as [previous|].
    - by rewrite list_lookup_alter_ne by lia. }
  assert (Hrange : ∀ n k, (1 ≤ k)%nat →
            forallb (passes (alter (Block.set_data data) 0%nat chain)) (seq k n)
            = forallb (passes chain) (seq k n)
            ∧ omap (report (alter (Block.set_data data) 0%nat chain)) (seq k n)
              = omap (report chain) (seq k n)).
  { induction n as [|n IH]; intros k Hk; [done|].
    destruct (Hsame k Hk) as [Hrep Hpass]. destruct (IH (S k)) as [Hps Hrs]; [lia|].
    cbn [seq forallb omap list_omap]. by rewrite Hrep, Hpass, Hps, Hrs. }
  by destruct (Hrange (length chain - 1)%nat 1%nat) as [-> ->].
Qed.

(** ** [mine_block] *)

(** C3: whenever [mine_block] returns, at a difficulty [d], the hash it
    returns begins with at least [d] characters ['0'] (for every integer
    [d], so for every [d >= 0]) and is the hash of the block's index, time
    stamp, data and previous hash with the nonce the search stopped at, the
    only field that has moved.  At difficulty 0 the first turn of the loop
    already returns: the block of the constructor is sealed with its nonce
    still 0. *)
Theorem mine_block_correct :
  (∀ fuel self self' mined,
     Block.mine_block fuel self = Returns (self', mined) →
     BlockHeader.difficulty (Block.header self)
       ≤ Z.of_nat (pystr.leading_zeros mined)
     ∧ self' = Block.with_nonce (BlockHeader.nonce (Block.header self')) self
     ∧ mined = hashlib.sha256_hexdigest
         (pystr.of_int (BlockHeader.index (Block.header self))
          ++ BlockHeader.timestamp (Block.header self)
          ++ Block.data self
          ++ pystr.of_opt (BlockHeader.previous_hash (Block.header self))
          ++ pystr.of_int (BlockHeader.nonce (Block.header self')))%string)
  ∧ (∀ fuel index data previous_hash timestamp,
       let self := Block.draft index data previous_hash 0 timestamp in
       BlockHeader.nonce (Block.header self) = 0
       ∧ Block.mine_block (S fuel) self = Returns (self, Block.calculate_hash self)
       ∧ Block.init index data previous_hash 0 timestamp (S fuel)
         = Returns (Block.with_hash (Some (Block.calculate_hash self)) self)).
Proof.
  split.
  - intros fuel self self' mined Hrun. unfold Block.mine_block in Hrun.
    apply mine_loop_returns in Hrun as (Hmined & Hpre & Hself & _).
    apply startswith_zeros in Hpre. split; [lia|]. split; [done|].
    rewrite Hmined. rewrite Hself at 1. reflexivity.
  - intros fuel index data previous_hash timestamp self.
    split; [reflexivity|]. split; reflexivity.
Qed.

Lemma mine_block_correct_witness :
  let self := Block.draft 0 "Genesis Block" (Some "0"%string) 1 demo.t0 in
  Block.mine_block 14 self = Returns (Block.with_nonce 13 self, demo.h0)
  ∧ 1 ≤ Z.of_nat (pystr.leading_zeros demo.h0)
  ∧ Block.with_nonce 13 self = Block.with_nonce 13 self
  ∧ demo.h0 = hashlib.sha256_hexdigest
      ("0" ++ demo.t0 ++ "Genesis Block" ++ "0" ++ "13")%string.
Proof.
  intros self.
  assert (Hrun : Block.mine_block 14 self = Returns (Block.with_nonce 13 self, demo.h0))
    by (vm_compute; reflexivity).
  split; [exact Hrun|].
  exact (proj1 mine_block_correct 14%nat self _ _ Hrun).
Defined.

(** ** The constructor and [add_block] *)

(** C4: the constructor makes a one-block chain whose block has index 0,
    data [Genesis Block], previous hash ["0"] and the chain's difficulty;
    [add_block] appends one block whose index is the length the chain had,
    whose previous hash is the stored hash of the former last block and
    whose difficulty is the chain's, and touches nothing else.  So in every
    chain built this way block 0 is that genesis block, the block at
    position [i] has index [i], and each block after the first points at
    the stored hash of the block before it. *)
Theorem chain_structure :
  (∀ difficulty timestamp fuel bc,
     Blockchain.init difficulty timestamp fuel = Returns bc →
     Blockchain.difficulty bc = difficulty
     ∧ ∃ g, Blockchain.chain bc = [g]
         ∧ BlockHeader.index (Block.header g) = 0
         ∧ Block.data g = "Genesis Block"
         ∧ BlockHeader.previous_hash (Block.header g) = Some "0"%string
         ∧ BlockHeader.difficulty (Block.header g) = difficulty)
  ∧ (∀ self data timestamp fuel bc,
       Blockchain.add_block self data timestamp fuel = Returns bc →
       Blockchain.difficulty bc = Blockchain.difficulty self
       ∧ ∃ tail new_block,
           last (Blockchain.chain self) = Some tail
           ∧ Blockchain.chain bc = Blockchain.chain self ++ [new_block]
           ∧ BlockHeader.index (Block.header new_block)
             = Z.of_nat (length (Blockchain.chain self))
           ∧ BlockHeader.previous_hash (Block.header new_block)
             = BlockHeader.hash (Block.header tail)
           ∧ BlockHeader.difficulty (Block.header new_block)
             = Blockchain.difficulty self
           ∧ Block.data new_block = data)
  ∧ (∀ bc, built bc →
       (∃ g, Blockchain.chain bc !! 0%nat = Some g
           ∧ BlockHeader.index (Block.header g) = 0
           ∧ Block.data g = "Genesis Block"
           ∧ BlockHeader.previous_hash (Block.header g) = Some "0"%string)
       ∧ (∀ i b, Blockchain.chain bc !! i = Some b →
            BlockHeader.index (Block.header b) = Z.of_nat i
            ∧ BlockHeader.difficulty (Block.header b) = Blockchain.difficulty bc)
       ∧ (∀ i b previous, (0 < i)%nat →
            Blockchain.chain bc !! i = Some b →
            Blockchain.chain bc !! (i - 1)%nat = Some previous →
            BlockHeader.previous_hash (Block.header b)
            = BlockHeader.hash (Block.header previous))).
Proof.
  split; [|split].
  - intros difficulty timestamp fuel bc (g & Hg & ->)%init_returns.
    apply Block_init_returns in Hg as (n & _ & Hg & _).
    split; [done|]. exists g. split; [done|]. by rewrite Hg.
  - intros self data timestamp fuel bc
      (tail & new_block & Htail & Hnew & ->)%add_block_returns.
    apply Block_init_returns in Hnew as (n & _ & Hnew & _).
    split; [done|]. exists tail, new_block.
    split; [done|]. split; [done|]. by rewrite Hnew.
  - intros bc [Hgen Hhead _ Hlink]%built_well_formed. split; [|split].
    + destruct Hgen as (g & Hg & Hdata & Hprev). exists g.
      split; [done|]. split; [|done]. by destruct (Hhead 0%nat g Hg).
    + exact Hhead.
    + intros i b previous Hi Hb Hprev. apply (Hlink (i - 1)%nat); [|done].
      by replace (S (i - 1)) with i by lia.
Qed.

Lemma chain_structure_witness :
  built demo.ledger
  ∧ (∃ g, Blockchain.chain demo.ledger !! 0%nat = Some g
        ∧ BlockHeader.index (Block.header g) = 0
        ∧ Block.data g = "Genesis Block"
        ∧ BlockHeader.previous_hash (Block.header g) = Some "0"%string)
  ∧ (∀ i b, Blockchain.chain demo.ledger !! i = Some b →
       BlockHeader.index (Block.header b) = Z.of_nat i
       ∧ BlockHeader.difficulty (Block.header b) = 1)
  ∧ (∀ i b previous, (0 < i)%nat →
       Blockchain.chain demo.ledger !! i = Some b →
       Blockchain.chain demo.ledger !! (i - 1)%nat = Some previous →
       BlockHeader.previous_hash (Block.header b)
       = BlockHeader.hash (Block.header previous)).
Proof.
  split; [exact demo_ledger_built|].
  exact (proj2 (proj2 chain_structure) demo.ledger demo_ledger_built).
Defined.

(** ** [tamper_block] *)

Lemma tamper_block_inside (self : Blockchain.t) (index : Z) :
  0 < index < Z.of_nat (length (Blockchain.chain self)) →
  Blockchain.tamper_block self index
  = ({| Blockchain.difficulty := Blockchain.difficulty self;
        Blockchain.chain := alter (Block.set_data "Tampered Data") (Z.to_nat index)
                                  (Blockchain.chain self) |},
     [Tampered index]).
Proof.
  intros [Hlo Hhi]. unfold Blockchain.tamper_block.
  by rewrite (proj2 (Z.ltb_lt _ _) Hlo), (proj2 (Z.ltb_lt _ _) Hhi).
Qed.

(** C6, as the code has it: for an index that is at most 0 or at least the
    length of the chain, [tamper_block] raises nothing.  The call returns
    as an accepted one does; all it has done is to print the refusal, in
    yellow, and nothing else, and the chain it leaves is the chain it was
    given, block for block and field for field. *)
Theorem tamper_block_refuses (self : Blockchain.t) (index : Z) :
  index ≤ 0 ∨ Z.of_nat (length (Blockchain.chain self)) ≤ index →
  tamper_block_call self index = Returns (self, [CannotTamper])
  ∧ Blockchain.tamper_block self index = (self, [CannotTamper])
  ∧ map render (Blockchain.tamper_block self index).2
    = [(YELLOW, "Cannot tamper Genesis block or out-of-range index."%string)].
Proof.
  intros Hout.
  assert (Hrefused : Blockchain.tamper_block self index = (self, [CannotTamper])).
  { unfold Blockchain.tamper_block.
    destruct (0 <? index) eqn:Hlo; [|done].
    destruct (index <? Z.of_nat (length (Blockchain.chain self))) eqn:Hhi; [|done].
    apply Z.ltb_lt in Hlo, Hhi. lia. }
  unfold tamper_block_call. rewrite Hrefused. by repeat split.
Qed.

Lemma tamper_block_refuses_witness :
  (0 ≤ 0 ∨ Z.of_nat (length (Blockchain.chain demo.ledger)) ≤ 0)
  ∧ (3 ≤ 0 ∨ Z.of_nat (length (Blockchain.chain demo.ledger)) ≤ 3)
  ∧ tamper_block_call demo.ledger 0 = Returns (demo.ledger, [CannotTamper])
  ∧ Blockchain.tamper_block demo.ledger 3 = (demo.ledger, [CannotTamper]).
Proof.
  assert (H0 : 0 ≤ 0 ∨ Z.of_nat (length (Blockchain.chain demo.ledger)) ≤ 0)
    by (left; lia).
  assert (H3 : 3 ≤ 0 ∨ Z.of_nat (length (Blockchain.chain demo.ledger)) ≤ 3)
    by (right; simpl; lia).
  split; [exact H0|]. split; [exact H3|]. split.
  - exact (proj1 (tamper_block_refuses demo.ledger 0 H0)).
  - exact (proj1 (proj2 (tamper_block_refuses demo.ledger 3 H3))).
Defined.

(** C6, as stated, fails: no error is raised.  On the three-block chain of
    the session the calls [tamper_block(0)] and [tamper_block(3)], one at
    the genesis block and one out of range, both return; so it is not so
    that every call with such an index fails with an error. *)
Lemma tamper_block_raises_no_error :
  tamper_block_call demo.ledger 0 = Returns (demo.ledger, [CannotTamper])
  ∧ tamper_block_call demo.ledger 3 = Returns (demo.ledger, [CannotTamper])
  ∧ ¬ (∃ e, tamper_block_call demo.ledger 0 = Raises e)
  ∧ ¬ (∃ e, tamper_block_call demo.ledger 3 = Raises e)
  ∧ ¬ (∀ self index,
         index ≤ 0 ∨ Z.of_nat (length (Blockchain.chain self)) ≤ index →
         ∃ e, tamper_block_call self index = Raises e).
Proof.
  split; [reflexivity|]. split; [reflexivity|].
  split; [by intros [e He]|]. split; [by intros [e He]|].
  intros Hfails. destruct (Hfails demo.ledger 0) as [e He]; [left; lia|].
  discriminate He.
Qed.

(** C7: for an index strictly between 0 and the length of the chain,
    [tamper_block] puts the marker [Tampered Data] in the data of the block
    at that index and changes nothing else: the header of that block (hash,
    nonce, index, time stamp, previous hash, difficulty) is the one it had,
    every other block is as it was, and so are the length of the chain and
    its difficulty. *)
Theorem tamper_block_frame (self : Blockchain.t) (index : Z) :
  0 < index < Z.of_nat (length (Blockchain.chain self)) →
  ∃ b,
    Blockchain.chain self !! Z.to_nat index = Some b
    ∧ Blockchain.chain (Blockchain.tamper_block self index).1 !! Z.to_nat index
      = Some {| Block.header := Block.header b; Block.data := "Tampered Data" |}
    ∧ (∀ j, j ≠ Z.to_nat index →
         Blockchain.chain (Blockchain.tamper_block self index).1 !! j
         = Blockchain.chain self !! j)
    ∧ length (Blockchain.chain (Blockchain.tamper_block self index).1)
      = length (Blockchain.chain self)
    ∧ Blockchain.difficulty (Blockchain.tamper_block self index).1
      = Blockchain.difficulty self
    ∧ (Blockchain.tamper_block self index).2 = [Tampered index].
Proof.
  intros Hin. rewrite (tamper_block_inside self index Hin).
  cbn [fst snd Blockchain.chain Blockchain.difficulty].
  destruct (lookup_lt_is_Some_2 (Blockchain.chain self) (Z.to_nat index))
    as [b Hb]; [lia|].
  exists b. split; [done|]. split; [|split; [|split; [|done]]].
  - by rewrite list_lookup_alter_eq, Hb.
  - intros j Hj. by rewrite list_lookup_alter_ne.
  - apply length_alter.
Qed.

Lemma tamper_block_frame_witness :
  0 < 1 < Z.of_nat (length (Blockchain.chain demo.ledger))
  ∧ Blockchain.tamper_block demo.ledger 1
    = ({| Blockchain.difficulty := 1;
          Blockchain.chain :=
            [demo.genesis;
             demo.block 1 demo.t1 demo.h0 8 demo.h1 "Tampered Data";
             demo.bob] |},
       [Tampered 1])
  ∧ ∃ b,
      Blockchain.chain demo.ledger !! Z.to_nat 1 = Some b
      ∧ Blockchain.chain (Blockchain.tamper_block demo.ledger 1).1 !! Z.to_nat 1
        = Some {| Block.header := Block.header b; Block.data := "Tampered Data" |}
      ∧ (∀ j, j ≠ Z.to_nat 1 →
           Blockchain.chain (Blockchain.tamper_block demo.ledger 1).1 !! j
           = Blockchain.chain demo.ledger !! j)
      ∧ length (Blockchain.chain (Blockchain.tamper_block demo.ledger 1).1)
        = length (Blockchain.chain demo.ledger)
      ∧ Blockchain.difficulty (Blockchain.tamper_block demo.ledger 1).1
        = Blockchain.difficulty demo.ledger
      ∧ (Blockchain.tamper_block demo.ledger 1).2 = [Tampered 1].
Proof.
  assert (Hin : 0 < 1 < Z.of_nat (length (Blockchain.chain demo.ledger)))
    by (simpl; lia).
  split; [exact Hin|]. split; [reflexivity|].
  exact (tamper_block_frame demo.ledger 1 Hin).
Defined.

(** C5 at a chain the engine can be given: the session in which the first
    payload is the text [Tampered Data].  [tamper_block(1)] reports the
    block as tampered and leaves the chain as it was, and [is_chain_valid]
    afterwards returns true with block 1 printed as valid. *)
Theorem tamper_block_marker_unnoticed :
  built demo.marked
  ∧ Blockchain.tamper_block demo.marked 1 = (demo.marked, [Tampered 1])
  ∧ Blockchain.is_chain_valid (Blockchain.tamper_block demo.marked 1).1
    = Returns (true, [BlockValid 1]).
Proof.
  split; [exact demo_marked_built|]. split; [reflexivity|].
  exact (well_formed_valid demo.marked (built_well_formed _ demo_marked_built)).
Qed.

(** The same on every chain: tampering with a block that already holds the
    marker is not seen. *)
Lemma tamper_block_marker_noop (self : Blockchain.t) (index : Z) (b : Block.t) :
  0 < index < Z.of_nat (length (Blockchain.chain self)) →
  Blockchain.chain self !! Z.to_nat index = Some b →
  Block.data b = "Tampered Data" →
  Blockchain.tamper_block self index = (self, [Tampered index]).
Proof.
  intros Hin Hb Hdata. rewrite (tamper_block_inside self index Hin).
  f_equal. destruct self as [difficulty chain]. f_equal.
  cbn [Blockchain.chain] in *. apply list_eq. intros j.
  destruct (decide (j = Z.to_nat index)) as [->|Hj].
  - rewrite list_lookup_alter_eq, Hb. cbn. f_equal.
    destruct b as [header data]. cbn in Hdata. by subst data.
  - by rewrite list_lookup_alter_ne.
Qed.

(** What tampering does otherwise: on a built chain, when the hash of the
    block with the marker as data differs from the stored one,
    [is_chain_valid] returns false, the line of the tampered block is the
    hash mismatch and every other block is printed as valid. *)
Lemma tamper_block_detected (bc : Blockchain.t) (index : Z) (b : Block.t) :
  built bc →
  0 < index < Z.of_nat (length (Blockchain.chain bc)) →
  Blockchain.chain bc !! Z.to_nat index = Some b →
  Block.calculate_hash (Block.set_data "Tampered Data" b) ≠ Block.calculate_hash b →
  ∃ out,
    Blockchain.is_chain_valid (Blockchain.tamper_block bc index).1
    = Returns (false, out)
    ∧ length out = (length (Blockchain.chain bc) - 1)%nat
    ∧ ∀ i, (1 ≤ i < length (Blockchain.chain bc))%nat →
        out !! (i - 1)%nat
        = Some (if decide (i = Z.to_nat index)
                then InvalidHash i (BlockHeader.hash (Block.header b))
                       (Block.calculate_hash (Block.set_data "Tampered Data" b))
                else BlockValid i).
Proof.
  intros Hbuilt Hin Hb Hfresh.
  pose proof (built_well_formed _ Hbuilt) as [_ _ Hseal Hlink].
  rewrite (tamper_block_inside bc index Hin). cbn [fst].
  set (chain := Blockchain.chain bc) in *.
  set (chain' := alter (Block.set_data "Tampered Data") (Z.to_nat index) chain).
  set (b' := Block.set_data "Tampered Data" b).
  assert (Hat : chain' !! Z.to_nat index = Some b')
    by (unfold chain'; by rewrite list_lookup_alter_eq, Hb).
  assert (Hother : ∀ j, j ≠ Z.to_nat index → chain' !! j = chain !! j)
    by (intros j Hj; unfold chain'; by rewrite list_lookup_alter_ne).
  assert (Hlen : length chain' = length chain) by apply length_alter.
  assert (Hopen : ¬ sealed b').
  { unfold sealed. cbn [b' Block.set_data Block.header].
    destruct (Hseal _ _ Hb) as [Hsealed _]. unfold sealed in Hsealed.
    rewrite Hsealed. intros [= Hsame]. apply Hfresh. by rewrite Hsame. }
  destruct (unsealed_block_reported
              {| Blockchain.difficulty := Blockchain.difficulty bc;
                 Blockchain.chain := chain' |} (Z.to_nat index) b')
    as (out & Hrun & Hout & _); [lia | done | done |].
  cbn [Blockchain.chain] in Hout. rewrite Hlen in Hout.
  exists out. split; [exact Hrun|]. split.
  - rewrite Hout, <- Hlen. apply reports_length.
  - intros i Hi.
    destruct (lookup_lt_is_Some_2 chain' i) as [current Hcur]; [lia|].
    destruct (lookup_lt_is_Some_2 chain' (i - 1)) as [previous Hprev]; [lia|].
    rewrite Hout, <- Hlen, (reports_line chain' i current previous); [|lia|done..].
    f_equal. destruct (decide (i = Z.to_nat index)) as [->|Hne].
    + assert (current = b') as -> by congruence.
      rewrite (verdict_unsealed _ _ previous Hopen). reflexivity.
    + rewrite (Hother i Hne) in Hcur.
      assert (∃ p, chain !! (i - 1)%nat = Some p
                 ∧ BlockHeader.hash (Block.header p)
                   = BlockHeader.hash (Block.header previous)) as (p & Hp & Hsame).
      { destruct (decide ((i - 1)%nat = Z.to_nat index)) as [Heq|Hne'].
        - rewrite Heq in Hprev. exists b. split; [by rewrite Heq|].
          rewrite Hat in Hprev. by injection Hprev as <-.
        - rewrite (Hother _ Hne') in Hprev. by exists previous. }
      destruct (Hseal _ _ Hcur) as [Hsealed _].
      assert (Hlinked : linked current p).
      { apply (Hlink (i - 1)%nat); [|done]. by replace (S (i - 1)) with i by lia. }
      apply verdict_valid; [done|]. unfold linked in *. congruence.
Qed.

(** ** [search_block] *)

Lemma search_fold (keyword : string) (l : list Block.t) : ∀ found out,
  foldl (Blockchain.search_step keyword) (found, out) l
  = (found || existsb (hit keyword) l,
     out ++ map found_line (List.filter (hit keyword) l)).
Proof.
  induction l as [|block l IH]; intros found out.
  - simpl. by rewrite orb_false_r, app_nil_r.
  - cbn [foldl existsb List.filter]. unfold Blockchain.search_step at 2.
    fold (hit keyword block). fold (found_line block).
    destruct (hit keyword block); rewrite IH.
    + cbn [map orb]. by rewrite orb_true_r, <- app_assoc.
    + done.
Qed.

Lemma existsb_filter_nil {A} (f : A → bool) (l : list A) :
  existsb f l = false ↔ List.filter f l = [].
Proof.
  induction l as [|x l IH]; [done|]. simpl. destruct (f x); simpl; [done | exact IH].
Qed.



(** * More of the engine *)

(** ** The shape of a hash *)

Section Digest.

Lemma length_round st kw : length st = 8%nat → length (hashlib.round st kw) = 8%nat.
Proof.
  intros Hst. do 9 (destruct st as [|? st]; try discriminate). reflexivity.
Qed.

Lemma length_rounds kws : ∀ st,
  length st = 8%nat → length (foldl hashlib.round st kws) = 8%nat.
Proof.
  induction kws as [|kw kws IH]; intros st Hst; [done|].
  cbn [foldl]. by apply IH, length_round.
Qed.

Lemma length_compress st block :
  length st = 8%nat → length (hashlib.compress st block) = 8%nat.
Proof.
  intros Hst. unfold hashlib.compress.
  by rewrite length_zip_with, length_rounds, Hst.
Qed.

Lemma length_sha256 msg : length (hashlib.sha256 msg) = 8%nat.
Proof.
  unfold hashlib.sha256. cbn zeta.
  generalize (hashlib.chunks (length (hashlib.words (hashlib.pad msg)))
                             (hashlib.words (hashlib.pad msg))).
  assert (Hall : ∀ blocks st, length st = 8%nat →
            length (foldl hashlib.compress st blocks) = 8%nat).
  { induction blocks as [|b blocks IH]; intros st Hst; [done|].
    cbn [foldl]. by apply IH, length_compress. }
  intros blocks. by apply Hall.
Qed.

Lemma hex_digit_lower n : 0 ≤ n < 16 → is_lower_hex (hashlib.hex_digit n) = true.
Proof.
  intros Hn.
  assert (Hcases : n = 0 ∨ n = 1 ∨ n = 2 ∨ n = 3 ∨ n = 4 ∨ n = 5 ∨ n = 6 ∨ n = 7
                   ∨ n = 8 ∨ n = 9 ∨ n = 10 ∨ n = 11 ∨ n = 12 ∨ n = 13 ∨ n = 14
                   ∨ n = 15) by lia.
  repeat (destruct Hcases as [->|Hcases]; [reflexivity|]). by subst n.
Qed.

Lemma hex_word_spec w :
  length (hashlib.hex_word w) = 8%nat
  ∧ Forall (fun c => is_lower_hex c = true) (hashlib.hex_word w).
Proof.
  split; [reflexivity|]. unfold hashlib.hex_word.
  apply Forall_fmap, Forall_forall. intros k _. cbn.
  apply hex_digit_lower. change 15 with (Z.ones 4).
  rewrite Z.land_ones by lia. apply Z.mod_pos_bound. lia.
Qed.

Lemma hex_words_spec ws :
  length (concat (map hashlib.hex_word ws)) = (8 * length ws)%nat
  ∧ Forall (fun c => is_lower_hex c = true) (concat (map hashlib.hex_word ws)).
Proof.
  induction ws as [|w ws [IHlen IHall]]; [by split|].
  destruct (hex_word_spec w) as [Hlen Hall].
  cbn [map concat]. split.
  - rewrite length_app, Hlen, IHlen. cbn [length]. lia.
  - by apply Forall_app.
Qed.

Lemma string_length_of_list l : String.length (string_of_list_ascii l) = length l.
Proof. induction l as [|c l IH]; [done|]. cbn. by rewrite IH. Qed.

Lemma sha256_hexdigest_shape s :
  String.length (hashlib.sha256_hexdigest s) = 64%nat
  ∧ Forall (fun c => is_lower_hex c = true)
           (list_ascii_of_string (hashlib.sha256_hexdigest s)).
Proof.
  unfold hashlib.sha256_hexdigest.
  destruct (hex_words_spec
              (hashlib.sha256
                 (map (fun c => Z.of_N (N_of_ascii c)) (list_ascii_of_string s))))
    as [Hlen Hall].
  rewrite string_length_of_list, list_ascii_of_string_of_list_ascii.
  split; [|done]. by rewrite Hlen, length_sha256.
Qed.

Lemma leading_zeros_le_length s : (pystr.leading_zeros s ≤ String.length s)%nat.
Proof.
  induction s as [|c s IH]; [done|]. cbn [pystr.leading_zeros String.length].
  destruct c as [[] [] [] [] [] [] [] []]; cbn; lia.
Qed.

(** No hash begins with more than 64 zeros. *)
Lemma startswith_too_long s (d : Z) :
  64 < d → pystr.startswith (hashlib.sha256_hexdigest s) (pystr.times "0" d) = false.
Proof.
  intros Hd. apply not_true_is_false. intros Hpre%startswith_zeros.
  pose proof (leading_zeros_le_length (hashlib.sha256_hexdigest s)) as Hle.
  destruct (sha256_hexdigest_shape s) as [Hlen _]. lia.
Qed.

Lemma mine_loop_too_hard fuel (d : Z) : ∀ self,
  64 < d → Block.mine_loop fuel (pystr.times "0" d) self = OutOfFuel.
Proof.
  induction fuel as [|fuel IH]; intros self Hd; [done|].
  cbn [Block.mine_loop]. unfold Block.calculate_hash at 1.
  rewrite startswith_too_long by done. by apply IH.
Qed.

End Digest.

(** X1: the hash of a block, whatever its fields, is a text of exactly 64
    characters, each a digit or a letter from [a] to [f]. *)
Theorem calculate_hash_shape (b : Block.t) :
  String.length (Block.calculate_hash b) = 64%nat
  ∧ Forall (fun c => is_lower_hex c = true)
           (list_ascii_of_string (Block.calculate_hash b)).
Proof. apply sha256_hexdigest_shape. Qed.

(** X2: a difficulty above 64 asks for more zeros than a hash has
    characters: the search of the constructor never ends, whatever the fuel,
    and neither does that of [add_block] on a chain with such a difficulty. *)
Theorem difficulty_above_64_never_returns (d : Z) :
  64 < d →
  (∀ timestamp fuel, Blockchain.init d timestamp fuel = OutOfFuel)
  ∧ (∀ self data timestamp fuel,
       Blockchain.chain self ≠ [] → Blockchain.difficulty self = d →
       Blockchain.add_block self data timestamp fuel = OutOfFuel).
Proof.
  intros Hd. split.
  - intros timestamp fuel.
    unfold Blockchain.init, Blockchain.create_genesis_block, Block.init,
      Block.mine_block.
    cbn [Block.draft Block.header BlockHeader.init BlockHeader.difficulty].
    by rewrite mine_loop_too_hard.
  - intros self data timestamp fuel Hne Hself.
    unfold Blockchain.add_block, Blockchain.get_latest_block.
    destruct (last (Blockchain.chain self)) as [tail|] eqn:Htail.
    + cbn [mbind outcome_bind]. unfold Block.init, Block.mine_block.
      cbn [Block.draft Block.header BlockHeader.init BlockHeader.difficulty].
      rewrite Hself. by rewrite mine_loop_too_hard.
    + by apply last_None in Htail.
Qed.

Lemma difficulty_above_64_never_returns_witness :
  64 < 65
  ∧ Blockchain.init 65 demo.t0 1000 = OutOfFuel
  ∧ Blockchain.add_block
      {| Blockchain.difficulty := 65; Blockchain.chain := [demo.genesis] |}
      "Alice pays Bob 5" demo.t1 1000 = OutOfFuel.
Proof.
  assert (H65 : 64 < 65) by lia.
  split; [exact H65|]. split.
  - exact (proj1 (difficulty_above_64_never_returns 65 H65) demo.t0 1000%nat).
  - apply (proj2 (difficulty_above_64_never_returns 65 H65)); [discriminate | reflexivity].
Defined.

(** X3: the nonce [mine_block] stops at is the first one, counting up from
    the nonce it starts with, whose hash has the zeros asked for: every
    nonce in between gives a hash with fewer leading zeros. *)
Theorem mine_block_least_nonce (fuel : nat) (self self' : Block.t) (mined : string) :
  Block.mine_block fuel self = Returns (self', mined) →
  BlockHeader.nonce (Block.header self) ≤ BlockHeader.nonce (Block.header self')
  ∧ (Z.to_nat (BlockHeader.difficulty (Block.header self))
     ≤ pystr.leading_zeros (Block.calculate_hash self'))%nat
  ∧ ∀ n, BlockHeader.nonce (Block.header self) ≤ n
         < BlockHeader.nonce (Block.header self') →
      (pystr.leading_zeros (Block.calculate_hash (Block.with_nonce n self))
       < Z.to_nat (BlockHeader.difficulty (Block.header self)))%nat.
Proof.
  unfold Block.mine_block. intros Hrun.
  pose proof (mine_loop_first _ _ _ _ _ Hrun) as Hfirst.
  apply mine_loop_returns in Hrun as (-> & Hpre & _ & Hle).
  split; [done|]. split; [by apply startswith_zeros|].
  intros n Hn. specialize (Hfirst n Hn).
  apply Nat.nle_gt. intros Hzeros%startswith_zeros. congruence.
Qed.

Lemma mine_block_least_nonce_witness :
  let self := Block.draft 0 "Genesis Block" (Some "0"%string) 1 demo.t0 in
  Block.mine_block 14 self = Returns (Block.with_nonce 13 self, demo.h0)
  ∧ ∀ n, 0 ≤ n < 13 →
      (pystr.leading_zeros (Block.calculate_hash (Block.with_nonce n self)) < 1)%nat.
Proof.
  intros self.
  assert (Hrun : Block.mine_block 14 self = Returns (Block.with_nonce 13 self, demo.h0))
    by (vm_compute; reflexivity).
  split; [exact Hrun|].
  exact (proj2 (proj2 (mine_block_least_nonce 14 self _ _ Hrun))).
Defined.

(** X4: [mine_block] comes to an end exactly when some nonce from the
    starting one on gives a hash with the zeros asked for; it never raises. *)
Theorem mine_block_returns_iff (self : Block.t) :
  (∃ fuel self' mined, Block.mine_block fuel self = Returns (self', mined))
  ↔ ∃ k : nat,
      (Z.to_nat (BlockHeader.difficulty (Block.header self))
       ≤ pystr.leading_zeros
           (Block.calculate_hash
              (Block.with_nonce (BlockHeader.nonce (Block.header self) + Z.of_nat k)
                 self)))%nat.
Proof.
  unfold Block.mine_block. split.
  - intros (fuel & self' & mined & Hrun).
    apply mine_loop_returns in Hrun as (-> & Hpre & Hself & Hle).
    exists (Z.to_nat (BlockHeader.nonce (Block.header self')
                      - BlockHeader.nonce (Block.header self))).
    replace (BlockHeader.nonce (Block.header self) + _)
      with (BlockHeader.nonce (Block.header self')) by lia.
    rewrite <- Hself. by apply startswith_zeros.
  - intros (k & Hk%startswith_zeros).
    destruct (mine_loop_enough_fuel _ k self Hk) as (self' & mined & Hrun).
    exists (S k), self', mined. apply Hrun. lia.
Qed.

(** X5: a difficulty of 0 or less asks for no zero at all, a negative one
    like 0: the constructor and [add_block] return after a single hash, and
    the block they make has the nonce 0. *)
Theorem nonpositive_difficulty_no_search (d : Z) :
  d ≤ 0 →
  (∀ timestamp fuel,
     let g := Block.draft 0 "Genesis Block" (Some "0"%string) d timestamp in
     Blockchain.init d timestamp (S fuel)
     = Returns {| Blockchain.difficulty := d;
                  Blockchain.chain :=
                    [Block.with_hash (Some (Block.calculate_hash g)) g] |})
  ∧ (∀ self data timestamp fuel tail,
       Blockchain.difficulty self = d →
       last (Blockchain.chain self) = Some tail →
       let b := Block.draft (Z.of_nat (length (Blockchain.chain self))) data
                  (BlockHeader.hash (Block.header tail)) d timestamp in
       BlockHeader.nonce (Block.header b) = 0
       ∧ Blockchain.add_block self data timestamp (S fuel)
         = Returns {| Blockchain.difficulty := d;
                      Blockchain.chain :=
                        Blockchain.chain self
                        ++ [Block.with_hash (Some (Block.calculate_hash b)) b] |}).
Proof.
  intros Hd.
  assert (Hprefix : pystr.times "0" d = EmptyString).
  { unfold pystr.times. by replace (Z.to_nat d) with 0%nat by lia. }
  split.
  - intros timestamp fuel g.
    unfold Blockchain.init, Blockchain.create_genesis_block, Block.init,
      Block.mine_block.
    cbn [Block.draft Block.header BlockHeader.init BlockHeader.difficulty].
    rewrite Hprefix. reflexivity.
  - intros self data timestamp fuel tail Hself Htail b. split; [reflexivity|].
    unfold Blockchain.add_block, Blockchain.get_latest_block. rewrite Htail, Hself.
    cbn [mbind outcome_bind]. unfold Block.init, Block.mine_block.
    cbn [Block.draft Block.header BlockHeader.init BlockHeader.difficulty].
    rewrite Hprefix. reflexivity.
Qed.

Lemma nonpositive_difficulty_no_search_witness :
  -2 ≤ 0
  ∧ Blockchain.init (-2) demo.t0 1
    = Returns {| Blockchain.difficulty := -2;
                 Blockchain.chain :=
                   [{| Block.header :=
                         {| BlockHeader.index := 0; BlockHeader.timestamp := demo.t0;
                            BlockHeader.previous_hash := Some "0"%string;
                            BlockHeader.nonce := 0; BlockHeader.difficulty := -2;
                            BlockHeader.hash :=
                              Some "fb9dcaa476d509000e9052ebf655737b02d596a24daebd5adc3895f5ac8b3611"%string |};
                       Block.data := "Genesis Block" |}] |}.
Proof.
  assert (Hd : -2 ≤ 0) by lia.
  split; [exact Hd|].
  refine (eq_trans (proj1 (nonpositive_difficulty_no_search (-2) Hd) demo.t0 0%nat) _).
  vm_compute. reflexivity.
Defined.

(** ** Chains in use *)

Section InUse.

Implicit Types (self bc : Blockchain.t).



(** The block the constructor of [Block] hands back: sealed, with the zeros
    asked for, at the least nonce from 0 that gives them. *)
Lemma Block_init_mined index data previous_hash difficulty timestamp fuel b :
  Block.init index data previous_hash difficulty timestamp fuel = Returns b →
  0 ≤ BlockHeader.nonce (Block.header b)
  ∧ ∀ n, 0 ≤ n < BlockHeader.nonce (Block.header b) →
      (pystr.leading_zeros (Block.calculate_hash (Block.with_nonce n b))
       < Z.to_nat difficulty)%nat.
Proof.
  unfold Block.init, Block.mine_block.
  destruct (Block.mine_loop _ _ _) as [[self' mined]| |] eqn:Hmine; [|done..].
  cbn [mbind outcome_bind mret outcome_ret]. intros [= <-].
  pose proof (mine_loop_first _ _ _ _ _ Hmine) as Hfirst.
  apply mine_loop_returns in Hmine as (-> & Hpre & Hself & Hle).
  split; [exact Hle|]. intros n Hn.
  specialize (Hfirst n Hn). apply Nat.nle_gt. intros Hz%startswith_zeros.
  assert (Hsame : Block.calculate_hash
                    (Block.with_nonce n
                       (Block.with_hash (Some (Block.calculate_hash self')) self'))
                  = Block.calculate_hash
                      (Block.with_nonce n
                         (Block.draft index data previous_hash difficulty timestamp)))
    by (rewrite Hself; reflexivity).
  rewrite Hsame in Hz.
  cbn [Block.draft Block.header BlockHeader.init BlockHeader.difficulty] in Hfirst.
  congruence.
Qed.

Lemma built_mined bc :
  built bc →
  ∀ i b, Blockchain.chain bc !! i = Some b →
    0 ≤ BlockHeader.nonce (Block.header b)
    ∧ ∀ n, 0 ≤ n < BlockHeader.nonce (Block.header b) →
        (pystr.leading_zeros (Block.calculate_hash (Block.with_nonce n b))
         < Z.to_nat (Blockchain.difficulty bc))%nat.
Proof.
  induction 1 as [difficulty timestamp fuel bc Hinit
                 | bc data timestamp fuel bc' _ IH Hadd]; intros i b Hb.
  - apply init_returns in Hinit as (g & Hg & ->).
    destruct i; [|done]. injection Hb as <-. by eapply Block_init_mined.
  - apply add_block_returns in Hadd as (tail & new_block & _ & Hnew & ->).
    cbn [Blockchain.chain Blockchain.difficulty] in *.
    apply lookup_app_Some in Hb as [Hb | [_ [_ <-]%list_lookup_singleton_Some]].
    + by apply (IH i).
    + by eapply Block_init_mined.
Qed.

Lemma well_formed_kept bc : well_formed bc → kept bc.
Proof.
  intros [Hgen Hhead Hseal Hlink]. split.
  - destruct Hgen as (g & Hg & Hdata & Hprev). exists g.
    repeat split; [done..|]. by destruct (Hseal _ _ Hg).
  - intros i b Hb. destruct (Hhead _ _ Hb) as [Hindex Hdiff].
    destruct (Hseal _ _ Hb) as [Hsealed Hzeros].
    repeat split; [done..|]. by exists (Block.calculate_hash b).
  - intros i b Hb. left. by destruct (Hseal _ _ Hb).
  - exact Hlink.
Qed.

Lemma tamper_block_kept bc index : kept bc → kept (Blockchain.tamper_block bc index).1.
Proof.
  intros Hkept. unfold Blockchain.tamper_block.
  destruct ((0 <? index) && (index <? Z.of_nat (length (Blockchain.chain bc))))
    eqn:Hin; [|done].
  apply andb_true_iff in Hin as [Hlo%Z.ltb_lt Hhi%Z.ltb_lt].
  destruct Hkept as [Hgen Hhead Hseal Hlink].
  cbn [fst]. set (f := Block.set_data "Tampered Data").
  assert (Hat : ∀ i b', alter f (Z.to_nat index) (Blockchain.chain bc) !! i = Some b' →
            ∃ b, Blockchain.chain bc !! i = Some b
               ∧ Block.header b' = Block.header b
               ∧ (b' = b ∨ (i = Z.to_nat index ∧ Block.data b' = "Tampered Data"))).
  { intros i b' Hb'. destruct (decide (i = Z.to_nat index)) as [->|Hne].
    - rewrite list_lookup_alter_eq in Hb'.
      destruct (Blockchain.chain bc !! Z.to_nat index) as [b|]; [|done].
      injection Hb' as <-. exists b. split; [done|]. split; [done|]. by right.
    - rewrite list_lookup_alter_ne in Hb' by done. exists b'.
      split; [done|]. split; [done|]. by left. }
  split; cbn [Blockchain.chain Blockchain.difficulty].
  - destruct Hgen as (g & Hg & Hrest). exists g.
    by rewrite list_lookup_alter_ne by lia.
  - intros i b' (b & Hb & Hheader & _)%Hat. rewrite Hheader. by apply Hhead.
  - intros i b' (b & Hb & _ & [-> | [_ Hdata]])%Hat; [by apply (Hseal i) | by right].
  - intros i b' previous' (b & Hb & Hheader & _)%Hat (p & Hp & Hheader' & _)%Hat.
    unfold linked. rewrite Hheader, Hheader'. by apply (Hlink i).
Qed.

Lemma add_block_kept self data timestamp fuel bc :
  kept self →
  Blockchain.add_block self data timestamp fuel = Returns bc →
  kept bc.
Proof.
  intros [Hgen Hhead Hseal Hlink] (tail & b' & Htail & Hnew & ->)%add_block_returns.
  apply Block_init_returns in Hnew as (n & Hn & Hb' & Hzeros).
  rewrite last_lookup in Htail.
  assert (Hsealed : sealed b') by (unfold sealed; by rewrite Hb' at 1).
  split; cbn [Blockchain.chain Blockchain.difficulty].
  - destruct Hgen as (g & Hg & ?). exists g. split; [|done].
    by apply lookup_app_l_Some.
  - intros i b [Hi | [Hi [Hi0 <-]%list_lookup_singleton_Some]]%lookup_app_Some.
    + by apply Hhead.
    + split; [rewrite Hb'; simpl; f_equal; lia|]. split; [by rewrite Hb'|].
      exists (Block.calculate_hash b'). by split.
  - intros i b [Hi | [Hi [Hi0 <-]%list_lookup_singleton_Some]]%lookup_app_Some.
    + by apply (Hseal i).
    + by left.
  - intros i b previous Hb Hprev.
    apply lookup_app_Some in Hb as [Hb | [Hlen Hb]].
    + apply (Hlink i); [done|].
      apply lookup_app_Some in Hprev as [Hprev | [Hlen' _]]; [done|].
      apply lookup_lt_Some in Hb. lia.
    + apply list_lookup_singleton_Some in Hb as [Hi <-].
      assert (i = pred (length (Blockchain.chain self))) as -> by lia.
      rewrite lookup_app_l in Hprev by (apply lookup_lt_is_Some; eauto).
      rewrite Htail in Hprev. injection Hprev as <-.
      unfold linked. by rewrite Hb'.
Qed.

Lemma step_kept bc bc' : kept bc → step bc bc' → kept bc'.
Proof.
  intros Hkept Hstep.
  destruct Hstep as [self data timestamp fuel bc'' Hadd | self index].
  - by eapply add_block_kept.
  - by apply tamper_block_kept.
Qed.

Lemma operated_kept bc : operated bc → kept bc.
Proof.
  induction 1 as [difficulty timestamp fuel bc Hinit | bc bc' _ IH Hstep].
  - by eapply well_formed_kept, init_well_formed.
  - by eapply step_kept.
Qed.

Lemma later_kept bc bc' : kept bc → later bc bc' → kept bc'.
Proof.
  intros Hkept Hlater. induction Hlater as [bc | bc bc' bc'' _ IH Hstep]; [done|].
  eapply step_kept; [by apply IH | done].
Qed.

Lemma built_operated bc : built bc → operated bc.
Proof.
  induction 1 as [difficulty timestamp fuel bc Hinit
                 | bc data timestamp fuel bc' _ IH Hadd].
  - by eapply operated_init.
  - eapply operated_step; [exact IH | by eapply step_add].
Qed.

End InUse.

Lemma demo_ledger_operated : operated demo.ledger.
Proof. exact (built_operated _ demo_ledger_built). Qed.

Section InUseValidator.

Implicit Types (self bc : Blockchain.t) (chain : list Block.t).

Lemma validator_range_ext chain chain' (n : nat) : ∀ k,
  (∀ i, (k ≤ i < k + n)%nat →
     passes chain' i = passes chain i ∧ report chain' i = report chain i) →
  forallb (passes chain') (seq k n) = forallb (passes chain) (seq k n)
  ∧ omap (report chain') (seq k n) = omap (report chain) (seq k n).
Proof.
  induction n as [|n IH]; intros k Hsame; [done|].
  destruct (Hsame k) as [Hpass Hrep]; [lia|].
  destruct (IH (S k)) as [Hps Hrs]; [intros i Hi; apply Hsame; lia|].
  cbn [seq forallb omap list_omap]. by rewrite Hpass, Hrep, Hps, Hrs.
Qed.

Lemma report_cases chain i m :
  report chain i = Some m →
  ∃ current previous,
    chain !! i = Some current ∧ chain !! (i - 1)%nat = Some previous
    ∧ m = verdict i current previous.
Proof.
  unfold report.
  destruct (chain !! i) as [current|]; [|done].
  destruct (chain !! (i - 1)%nat) as [previous|]; [|done].
  cbn. intros [= <-]. by exists current, previous.
Qed.

Lemma forallb_false_witness {A} (f : A → bool) (l : list A) :
  forallb f l = false → ∃ x, In x l ∧ f x = false.
Proof.
  induction l as [|x l IH]; [done|]. cbn [forallb].
  destruct (f x) eqn:Hx.
  - intros (y & Hy & Hfy)%IH. exists y. split; [by right | done].
  - intros _. exists x. split; [by left | done].
Qed.

(** On a chain in use whose validation fails, some block after the genesis
    block has a stale stored hash. *)
Lemma kept_invalid_unsealed bc out :
  kept bc →
  Blockchain.is_chain_valid bc = Returns (false, out) →
  ∃ i b, (1 ≤ i)%nat ∧ Blockchain.chain bc !! i = Some b ∧ ¬ sealed b.
Proof.
  intros [_ _ _ Hlink]. rewrite is_chain_valid_eq. cbn zeta.
  intros [= Hflag _].
  apply forallb_false_witness in Hflag as (i & [Hi1 Hi2]%in_seq & Hfail).
  destruct (report_Some (Blockchain.chain bc) i)
    as (current & previous & Hcur & Hprev & _); [lia|].
  exists i, current. split; [lia|]. split; [done|]. intros Hsealed.
  assert (Hpass : passes (Blockchain.chain bc) i = true); [|congruence].
  apply (passes_iff _ _ _ _ Hcur Hprev). split; [done|].
  apply (Hlink (i - 1)%nat); [|done]. by replace (S (i - 1)) with i by lia.
Qed.

Lemma step_keeps_unsealed bc bc' i b :
  kept bc → step bc bc' →
  Blockchain.chain bc !! i = Some b → ¬ sealed b →
  Blockchain.chain bc' !! i = Some b.
Proof.
  intros Hkept Hstep Hb Hopen.
  destruct Hstep as [self data timestamp fuel bc'' Hadd | self index].
  - apply add_block_returns in Hadd as (tail & nb & _ & _ & ->).
    by apply lookup_app_l_Some.
  - unfold Blockchain.tamper_block.
    destruct ((0 <? index) && (index <? Z.of_nat (length (Blockchain.chain self))));
      [|done].
    cbn [fst Blockchain.chain].
    destruct (decide (i = Z.to_nat index)) as [->|Hne].
    + rewrite list_lookup_alter_eq, Hb. cbn. f_equal.
      destruct (kept_sealed _ Hkept _ _ Hb) as [Hsealed | Hdata]; [done|].
      destruct b as [header data]. cbn in Hdata. by subst data.
    + by rewrite list_lookup_alter_ne.
Qed.

Lemma later_keeps_unsealed bc bc' i b :
  kept bc → later bc bc' →
  Blockchain.chain bc !! i = Some b → ¬ sealed b →
  Blockchain.chain bc' !! i = Some b.
Proof.
  intros Hkept Hlater Hb Hopen.
  induction Hlater as [bc | bc bc' bc'' Hlater IH Hstep]; [done|].
  eapply step_keeps_unsealed; [by eapply later_kept | done | by apply IH | done].
Qed.

(** What a call leaves of the blocks there were. *)
Lemma step_grows bc bc' :
  step bc bc' →
  Blockchain.difficulty bc' = Blockchain.difficulty bc
  ∧ (length (Blockchain.chain bc) ≤ length (Blockchain.chain bc'))%nat
  ∧ ∀ i b, Blockchain.chain bc !! i = Some b →
      ∃ b', Blockchain.chain bc' !! i = Some b'
        ∧ Block.header b' = Block.header b
        ∧ (Block.data b' = Block.data b ∨ Block.data b' = "Tampered Data")
        ∧ (i = 0%nat → b' = b).
Proof.
  intros [self data timestamp fuel bc'' Hadd | self index].
  - apply add_block_returns in Hadd as (tail & nb & _ & _ & ->).
    cbn [Blockchain.chain Blockchain.difficulty]. split; [done|].
    split; [rewrite length_app; lia|].
    intros i b Hb. exists b. split; [by apply lookup_app_l_Some|].
    split; [done|]. split; [by left | done].
  - unfold Blockchain.tamper_block.
    destruct ((0 <? index) && (index <? Z.of_nat (length (Blockchain.chain self))))
      eqn:Hin.
    + apply andb_true_iff in Hin as [Hlo%Z.ltb_lt Hhi%Z.ltb_lt].
      cbn [fst Blockchain.chain Blockchain.difficulty]. split; [done|].
      split; [by rewrite length_alter|].
      intros i b Hb. destruct (decide (i = Z.to_nat index)) as [->|Hne].
      * exists (Block.set_data "Tampered Data" b).
        rewrite list_lookup_alter_eq, Hb. split; [done|]. split; [done|].
        split; [by right | lia].
      * exists b. rewrite list_lookup_alter_ne by done.
        split; [done|]. split; [done|]. split; [by left | done].
    + cbn [fst]. split; [done|]. split; [done|].
      intros i b Hb. exists b. split; [done|]. split; [done|].
      split; [by left | done].
Qed.

End InUseValidator.

(** X6: in a chain built by the constructor and [add_block], every block,
    the genesis block too, is sealed by proof of work: its stored hash is
    the hash of its fields and begins with as many zeros as the difficulty
    of the chain, and its nonce is the least one from 0 for which that is
    so. *)
Theorem built_blocks_mined (bc : Blockchain.t) (i : nat) (b : Block.t) :
  built bc →
  Blockchain.chain bc !! i = Some b →
  BlockHeader.hash (Block.header b) = Some (Block.calculate_hash b)
  ∧ (Z.to_nat (Blockchain.difficulty bc)
     ≤ pystr.leading_zeros (Block.calculate_hash b))%nat
  ∧ 0 ≤ BlockHeader.nonce (Block.header b)
  ∧ ∀ n, 0 ≤ n < BlockHeader.nonce (Block.header b) →
      (pystr.leading_zeros (Block.calculate_hash (Block.with_nonce n b))
       < Z.to_nat (Blockchain.difficulty bc))%nat.
Proof.
  intros Hbuilt Hb.
  destruct (wf_sealed _ (built_well_formed _ Hbuilt) _ _ Hb) as [Hsealed Hzeros].
  destruct (built_mined _ Hbuilt _ _ Hb) as [Hnonce Hleast].
  by repeat split.
Qed.

Lemma built_blocks_mined_witness :
  built demo.ledger
  ∧ Blockchain.chain demo.ledger !! 2%nat = Some demo.bob
  ∧ BlockHeader.hash (Block.header demo.bob) = Some (Block.calculate_hash demo.bob)
  ∧ (Z.to_nat 1 ≤ pystr.leading_zeros (Block.calculate_hash demo.bob))%nat
  ∧ 0 ≤ 13
  ∧ ∀ n, 0 ≤ n < 13 →
      (pystr.leading_zeros (Block.calculate_hash (Block.with_nonce n demo.bob))
       < Z.to_nat 1)%nat.
Proof.
  split; [exact demo_ledger_built|]. split; [reflexivity|].
  exact (built_blocks_mined demo.ledger 2 demo.bob demo_ledger_built eq_refl).
Defined.


(** X8: appending neither repairs nor breaks a chain.  When [add_block]
    returns, [is_chain_valid] on the longer chain prints what it printed on
    the chain before, then [Valid] for the new block, and returns the flag
    it returned before: a chain that failed still fails. *)
Theorem add_block_keeps_validity (self bc : Blockchain.t) (data timestamp : string)
    (fuel : nat) (valid : bool) (out : list message) :
  Blockchain.add_block self data timestamp fuel = Returns bc →
  Blockchain.is_chain_valid self = Returns (valid, out) →
  Blockchain.is_chain_valid bc
  = Returns (valid, out ++ [BlockValid (length (Blockchain.chain self))]).
Proof.
  intros (tail & nb & Htail & Hnew & ->)%add_block_returns.
  apply Block_init_returns in Hnew as (n & _ & Hnb & _).
  rewrite !is_chain_valid_eq. cbn [Blockchain.chain]. intros [= <- <-].
  set (chain := Blockchain.chain self) in *.
  rewrite last_lookup in Htail.
  assert (Hlen : (1 ≤ length chain)%nat).
  { apply lookup_lt_Some in Htail. lia. }
  rewrite length_app. cbn [length].
  replace (length chain + 1 - 1)%nat with (S (length chain - 1)) by lia.
  rewrite seq_S, forallb_app, omap_app.
  destruct (validator_range_ext chain (chain ++ [nb]) (length chain - 1) 1)
    as [-> ->].
  { intros i Hi. unfold passes, report.
    by rewrite !lookup_app_l by lia. }
  replace (1 + (length chain - 1))%nat with (length chain) by lia.
  assert (Hcur : (chain ++ [nb]) !! length chain = Some nb).
  { rewrite lookup_app_r by lia. by rewrite Nat.sub_diag. }
  assert (Hprev : (chain ++ [nb]) !! (length chain - 1)%nat = Some tail).
  { rewrite lookup_app_l by lia. by replace (length chain - 1)%nat
      with (pred (length chain)) by lia. }
  assert (Hsealed : sealed nb) by (unfold sealed; by rewrite Hnb at 1).
  assert (Hlinked : linked nb tail) by (unfold linked; by rewrite Hnb).
  cbn [forallb omap list_omap]. unfold report at 2. rewrite Hcur, Hprev. cbn.
  rewrite (proj2 (passes_iff _ _ _ _ Hcur Hprev)) by done.
  rewrite verdict_valid by done. by rewrite !andb_true_r.
Qed.

Lemma add_block_keeps_validity_witness :
  let tampered := (Blockchain.tamper_block
                     {| Blockchain.difficulty := 1;
                        Blockchain.chain := [demo.genesis; demo.alice] |} 1).1 in
  let stale := InvalidHash 1 (Some demo.h1)
                 "2e74c8b02884716082b49954360526612e05fbf46bc92983ef2c6810f1464c9e" in
  Blockchain.add_block tampered "Bob pays Carol 3" demo.t2 14
  = Returns (Blockchain.tamper_block demo.ledger 1).1
  ∧ Blockchain.is_chain_valid tampered = Returns (false, [stale])
  ∧ Blockchain.is_chain_valid (Blockchain.tamper_block demo.ledger 1).1
    = Returns (false, [stale; BlockValid 2]).
Proof.
  intros tampered stale.
  assert (Hadd : Blockchain.add_block tampered "Bob pays Carol 3" demo.t2 14
                 = Returns (Blockchain.tamper_block demo.ledger 1).1)
    by (vm_compute; reflexivity).
  assert (Hold : Blockchain.is_chain_valid tampered = Returns (false, [stale]))
    by (vm_compute; reflexivity).
  split; [exact Hadd|]. split; [exact Hold|].
  exact (add_block_keeps_validity _ _ _ _ _ false [stale] Hadd Hold).
Defined.

(** X9: on a chain in use (constructor, then [add_block] and
    [tamper_block] calls in any order) the link check of [is_chain_valid]
    never fails: no previous-hash line is printed, and every hash-mismatch
    line is about a block after the genesis block that holds the marker
    [Tampered Data]. *)
Theorem operated_only_marker_fails (bc : Blockchain.t) :
  operated bc →
  ∃ valid out,
    Blockchain.is_chain_valid bc = Returns (valid, out)
    ∧ (∀ i stored expected, InvalidPreviousHash i stored expected ∉ out)
    ∧ ∀ i stored calculated, InvalidHash i stored calculated ∈ out →
        (1 ≤ i)%nat
        ∧ ∃ b, Blockchain.chain bc !! i = Some b
             ∧ Block.data b = "Tampered Data"
             ∧ stored = BlockHeader.hash (Block.header b).
Proof.
  intros [_ _ Hseal Hlink]%operated_kept.
  eexists _, _. split; [apply is_chain_valid_eq|]. cbn zeta. split.
  - intros i stored expected (k & Hk & Hrep)%(report_in _ _ _ eq_refl).
    apply report_cases in Hrep as (current & previous & Hcur & Hprev & Hm).
    assert (Hlinked : linked current previous).
    { apply (Hlink (k - 1)%nat); [|done]. by replace (S (k - 1)) with k by lia. }
    unfold verdict in Hm. rewrite (bool_decide_eq_true_2 _ Hlinked) in Hm.
    by case_bool_decide.
  - intros i stored calculated (k & Hk & Hrep)%(report_in _ _ _ eq_refl).
    apply report_cases in Hrep as (current & previous & Hcur & Hprev & Hm).
    unfold verdict in Hm. repeat case_bool_decide; try done.
    injection Hm as -> -> _. split; [lia|]. exists current.
    split; [done|]. split; [|done].
    by destruct (Hseal _ _ Hcur) as [Hsealed | Hdata].
Qed.

Lemma operated_only_marker_fails_witness :
  operated (Blockchain.tamper_block demo.ledger 1).1
  ∧ ∃ valid out,
      Blockchain.is_chain_valid (Blockchain.tamper_block demo.ledger 1).1
      = Returns (valid, out)
      ∧ (∀ i stored expected, InvalidPreviousHash i stored expected ∉ out)
      ∧ ∀ i stored calculated, InvalidHash i stored calculated ∈ out →
          (1 ≤ i)%nat
          ∧ ∃ b, Blockchain.chain (Blockchain.tamper_block demo.ledger 1).1 !! i
                 = Some b
               ∧ Block.data b = "Tampered Data"
               ∧ stored = BlockHeader.hash (Block.header b).
Proof.
  assert (Hop : operated (Blockchain.tamper_block demo.ledger 1).1)
    by (apply (operated_step demo.ledger);
        [exact demo_ledger_operated | apply step_tamper]).
  split; [exact Hop|].
  exact (operated_only_marker_fails _ Hop).
Defined.

(** X10: through the engine's own calls a failed validation is for good.
    If [is_chain_valid] returns false on a chain in use, it returns false
    again after any further [add_block] and [tamper_block] calls. *)
Theorem invalid_stays_invalid (bc bc' : Blockchain.t) (out : list message) :
  operated bc →
  later bc bc' →
  Blockchain.is_chain_valid bc = Returns (false, out) →
  ∃ out', Blockchain.is_chain_valid bc' = Returns (false, out').
Proof.
  intros Hkept%operated_kept Hlater Hinvalid.
  destruct (kept_invalid_unsealed bc out Hkept Hinvalid) as (i & b & Hi & Hb & Hopen).
  pose proof (later_keeps_unsealed _ _ _ _ Hkept Hlater Hb Hopen) as Hb'.
  destruct (unsealed_block_reported bc' i b Hi Hb' Hopen) as (out' & Hrun & _).
  by exists out'.
Qed.

Lemma invalid_stays_invalid_witness :
  let tampered := (Blockchain.tamper_block
                     {| Blockchain.difficulty := 1;
                        Blockchain.chain := [demo.genesis; demo.alice] |} 1).1 in
  operated tampered
  ∧ later tampered
      (Blockchain.tamper_block (Blockchain.tamper_block demo.ledger 1).1 1).1
  ∧ Blockchain.is_chain_valid tampered
    = Returns (false,
               [InvalidHash 1 (Some demo.h1)
                  "2e74c8b02884716082b49954360526612e05fbf46bc92983ef2c6810f1464c9e"])
  ∧ ∃ out',
      Blockchain.is_chain_valid
        (Blockchain.tamper_block (Blockchain.tamper_block demo.ledger 1).1 1).1
      = Returns (false, out').
Proof.
  intros tampered.
  assert (Hop : operated tampered).
  { apply (operated_step {| Blockchain.difficulty := 1;
                            Blockchain.chain := [demo.genesis; demo.alice] |});
      [|apply step_tamper].
    apply (operated_step demo.fresh).
    - apply (operated_init 1 demo.t0 14). vm_compute. reflexivity.
    - apply (step_add _ "Alice pays Bob 5" demo.t1 9). vm_compute. reflexivity. }
  assert (Hlater : later tampered
            (Blockchain.tamper_block (Blockchain.tamper_block demo.ledger 1).1 1).1).
  { apply (later_step _ (Blockchain.tamper_block demo.ledger 1).1);
      [|apply step_tamper].
    apply (later_step _ tampered); [apply later_now|].
    apply (step_add _ "Bob pays Carol 3" demo.t2 14). vm_compute. reflexivity. }
  assert (Hbad : Blockchain.is_chain_valid tampered
            = Returns (false,
                [InvalidHash 1 (Some demo.h1)
                   "2e74c8b02884716082b49954360526612e05fbf46bc92983ef2c6810f1464c9e"]))
    by (vm_compute; reflexivity).
  split; [exact Hop|]. split; [exact Hlater|]. split; [exact Hbad|].
  exact (invalid_stays_invalid _ _ _ Hop Hlater Hbad).
Defined.

(** X11: no call of the engine deletes or reorders blocks or touches a
    header.  After any number of [add_block] and [tamper_block] calls, on
    any chain, the difficulty is the same, the chain is at least as long,
    and each block there was is still at its place with the header it had
    and with its data, or with the marker instead; block 0 is untouched. *)
Theorem later_only_grows (bc bc' : Blockchain.t) :
  later bc bc' →
  Blockchain.difficulty bc' = Blockchain.difficulty bc
  ∧ (length (Blockchain.chain bc) ≤ length (Blockchain.chain bc'))%nat
  ∧ ∀ i b, Blockchain.chain bc !! i = Some b →
      ∃ b', Blockchain.chain bc' !! i = Some b'
        ∧ Block.header b' = Block.header b
        ∧ (Block.data b' = Block.data b ∨ Block.data b' = "Tampered Data")
        ∧ (i = 0%nat → b' = b).
Proof.
  induction 1 as [bc | bc bc' bc'' _ (IHd & IHlen & IHblocks) Hstep].
  - split; [done|]. split; [done|]. intros i b Hb. exists b.
    split; [done|]. split; [done|]. split; [by left | done].
  - apply step_grows in Hstep as (Hd & Hlen & Hblocks).
    split; [congruence|]. split; [lia|].
    intros i b (b' & Hb' & Hheader & Hdata & Hzero)%IHblocks.
    apply Hblocks in Hb' as (b'' & Hb'' & Hheader' & Hdata' & Hzero').
    exists b''. split; [done|]. split; [congruence|]. split.
    + destruct Hdata' as [Hsame | Hmarker]; [|by right].
      rewrite Hsame. exact Hdata.
    + intros Hi. rewrite (Hzero' Hi). by apply Hzero.
Qed.

Lemma later_only_grows_witness :
  later demo.fresh (Blockchain.tamper_block demo.ledger 1).1
  ∧ Blockchain.difficulty (Blockchain.tamper_block demo.ledger 1).1
    = Blockchain.difficulty demo.fresh
  ∧ (length (Blockchain.chain demo.fresh)
     ≤ length (Blockchain.chain (Blockchain.tamper_block demo.ledger 1).1))%nat
  ∧ ∀ i b, Blockchain.chain demo.fresh !! i = Some b →
      ∃ b', Blockchain.chain (Blockchain.tamper_block demo.ledger 1).1 !! i = Some b'
        ∧ Block.header b' = Block.header b
        ∧ (Block.data b' = Block.data b ∨ Block.data b' = "Tampered Data")
        ∧ (i = 0%nat → b' = b).
Proof.
  assert (Hlater : later demo.fresh (Blockchain.tamper_block demo.ledger 1).1).
  { apply (later_step _ demo.ledger); [|apply step_tamper].
    apply (later_step _ {| Blockchain.difficulty := 1;
                           Blockchain.chain := [demo.genesis; demo.alice] |}).
    - apply (later_step _ demo.fresh); [apply later_now|].
      apply (step_add _ "Alice pays Bob 5" demo.t1 9). vm_compute. reflexivity.
    - apply (step_add _ "Bob pays Carol 3" demo.t2 14). vm_compute. reflexivity. }
  split; [exact Hlater|].
  exact (later_only_grows _ _ Hlater).
Defined.

(** X12: what tampering cannot undo.  On every chain in use the chain is
    not empty, block 0 is the sealed genesis block, the block at position
    [i] has index [i] and the difficulty of the chain, its stored hash is
    set and begins with as many zeros as the difficulty, and each block
    after the first points at the stored hash of the block before it. *)
Theorem operated_structure (bc : Blockchain.t) :
  operated bc →
  (∃ g, Blockchain.chain bc !! 0%nat = Some g
      ∧ Block.data g = "Genesis Block"
      ∧ BlockHeader.previous_hash (Block.header g) = Some "0"%string
      ∧ BlockHeader.hash (Block.header g) = Some (Block.calculate_hash g))
  ∧ (∀ i b, Blockchain.chain bc !! i = Some b →
       BlockHeader.index (Block.header b) = Z.of_nat i
       ∧ BlockHeader.difficulty (Block.header b) = Blockchain.difficulty bc
       ∧ ∃ h, BlockHeader.hash (Block.header b) = Some h
            ∧ (Z.to_nat (Blockchain.difficulty bc) ≤ pystr.leading_zeros h)%nat)
  ∧ (∀ i b previous, (0 < i)%nat →
       Blockchain.chain bc !! i = Some b →
       Blockchain.chain bc !! (i - 1)%nat = Some previous →
       BlockHeader.previous_hash (Block.header b)
       = BlockHeader.hash (Block.header previous)).
Proof.
  intros [Hgen Hhead _ Hlink]%operated_kept. split; [exact Hgen|].
  split; [exact Hhead|].
  intros i b previous Hi Hb Hprev. apply (Hlink (i - 1)%nat); [|done].
  by replace (S (i - 1)) with i by lia.
Qed.

Lemma operated_structure_witness :
  operated (Blockchain.tamper_block demo.fresh 5).1
  ∧ ∃ g, Blockchain.chain (Blockchain.tamper_block demo.fresh 5).1 !! 0%nat = Some g
       ∧ Block.data g = "Genesis Block"
       ∧ BlockHeader.previous_hash (Block.header g) = Some "0"%string
       ∧ BlockHeader.hash (Block.header g) = Some (Block.calculate_hash g).
Proof.
  assert (Hop : operated (Blockchain.tamper_block demo.fresh 5).1).
  { apply (operated_step demo.fresh); [|apply step_tamper].
    apply (operated_init 1 demo.t0 14). vm_compute. reflexivity. }
  split; [exact Hop|].
  exact (proj1 (operated_structure _ Hop)).
Defined.

(** ** More on [tamper_block] *)

(** X13: tampering with a block again changes nothing more, whatever the
    index, and tampering with two blocks gives the same chain in either
    order. *)
Theorem tamper_block_twice (self : Blockchain.t) (i j : Z) :
  (Blockchain.tamper_block (Blockchain.tamper_block self i).1 i).1
  = (Blockchain.tamper_block self i).1
  ∧ (Blockchain.tamper_block (Blockchain.tamper_block self i).1 j).1
    = (Blockchain.tamper_block (Blockchain.tamper_block self j).1 i).1.
Proof.
  assert (Hshape : ∀ k, (Blockchain.tamper_block self k).1
            = {| Blockchain.difficulty := Blockchain.difficulty self;
                 Blockchain.chain :=
                   if (0 <? k) && (k <? Z.of_nat (length (Blockchain.chain self)))
                   then alter (Block.set_data "Tampered Data") (Z.to_nat k)
                              (Blockchain.chain self)
                   else Blockchain.chain self |}).
  { intros k. unfold Blockchain.tamper_block.
    destruct ((0 <? k) && _); [done | by destruct self]. }
  assert (Hagain : ∀ k l, (Blockchain.tamper_block (Blockchain.tamper_block self k).1 l).1
            = {| Blockchain.difficulty := Blockchain.difficulty self;
                 Blockchain.chain :=
                   let once :=
                     if (0 <? k) && (k <? Z.of_nat (length (Blockchain.chain self)))
                     then alter (Block.set_data "Tampered Data") (Z.to_nat k)
                                (Blockchain.chain self)
                     else Blockchain.chain self in
                   if (0 <? l) && (l <? Z.of_nat (length (Blockchain.chain self)))
                   then alter (Block.set_data "Tampered Data") (Z.to_nat l) once
                   else once |}).
  { intros k l. rewrite (Hshape k). unfold Blockchain.tamper_block.
    cbn [Blockchain.chain Blockchain.difficulty].
    assert (Hlen : length (if (0 <? k) && (k <? Z.of_nat (length (Blockchain.chain self)))
                           then alter (Block.set_data "Tampered Data") (Z.to_nat k)
                                      (Blockchain.chain self)
                           else Blockchain.chain self)
                   = length (Blockchain.chain self)).
    { destruct ((0 <? k) && _); [apply length_alter | done]. }
    rewrite Hlen. by destruct ((0 <? l) && _). }
  split.
  - rewrite Hagain, Hshape. f_equal. cbn zeta.
    destruct ((0 <? i) && _); [|done].
    rewrite list_alter_alter_eq. by apply list_alter_ext.
  - rewrite !Hagain. f_equal. cbn zeta.
    destruct ((0 <? i) && _) eqn:Hi; destruct ((0 <? j) && _) eqn:Hj; try done.
    destruct (decide (Z.to_nat j = Z.to_nat i)) as [->|Hne]; [done|].
    by apply list_alter_alter_ne.
Qed.

(** X14: what tampering does to a built chain when the marker changes the
    hash of the block: [is_chain_valid] returns false, it prints the hash
    mismatch for the tampered block, with the stored hash that was left in
    place, and [Valid] for every other block, the next one included. *)
Theorem tamper_block_exposed (bc : Blockchain.t) (index : Z) (b : Block.t) :
  built bc →
  0 < index < Z.of_nat (length (Blockchain.chain bc)) →
  Blockchain.chain bc !! Z.to_nat index = Some b →
  Block.calculate_hash (Block.set_data "Tampered Data" b) ≠ Block.calculate_hash b →
  ∃ out,
    Blockchain.is_chain_valid (Blockchain.tamper_block bc index).1
    = Returns (false, out)
    ∧ length out = (length (Blockchain.chain bc) - 1)%nat
    ∧ ∀ i, (1 ≤ i < length (Blockchain.chain bc))%nat →
        out !! (i - 1)%nat
        = Some (if decide (i = Z.to_nat index)
                then InvalidHash i (BlockHeader.hash (Block.header b))
                       (Block.calculate_hash (Block.set_data "Tampered Data" b))
                else BlockValid i).
Proof. apply tamper_block_detected. Qed.

Lemma tamper_block_exposed_witness :
  built demo.ledger
  ∧ 0 < 1 < Z.of_nat (length (Blockchain.chain demo.ledger))
  ∧ Blockchain.chain demo.ledger !! Z.to_nat 1 = Some demo.alice
  ∧ Block.calculate_hash (Block.set_data "Tampered Data" demo.alice)
    ≠ Block.calculate_hash demo.alice
  ∧ ∃ out,
      Blockchain.is_chain_valid (Blockchain.tamper_block demo.ledger 1).1
      = Returns (false, out)
      ∧ length out = 2%nat
      ∧ ∀ i, (1 ≤ i < 3)%nat →
          out !! (i - 1)%nat
          = Some (if decide (i = 1%nat)
                  then InvalidHash i (Some demo.h1)
                         (Block.calculate_hash
                            (Block.set_data "Tampered Data" demo.alice))
                  else BlockValid i).
Proof.
  assert (Hin : 0 < 1 < Z.of_nat (length (Blockchain.chain demo.ledger)))
    by (simpl; lia).
  assert (Hne : Block.calculate_hash (Block.set_data "Tampered Data" demo.alice)
                ≠ Block.calculate_hash demo.alice)
    by (vm_compute; discriminate).
  split; [exact demo_ledger_built|]. split; [exact Hin|].
  split; [reflexivity|]. split; [exact Hne|].
  exact (tamper_block_exposed demo.ledger 1 demo.alice demo_ledger_built Hin
           eq_refl Hne).
Defined.

(** ** What is hashed, and what is not *)

Section Content.

Implicit Types s t u : string.

Lemma string_length_app s t :
  String.length (s ++ t)%string = (String.length s + String.length t)%nat.
Proof. induction s as [|c s IH]; simpl; [done | by f_equal]. Qed.

Lemma string_app_inv_l s t u : (s ++ t = s ++ u)%string → t = u.
Proof. induction s as [|c s IH]; simpl; [done|]. intros [= H]. by apply IH. Qed.

Lemma string_app_inv_r s t u : (s ++ u = t ++ u)%string → s = t.
Proof.
  revert t. induction s as [|c s IH]; intros [|c' t] Heq; simpl in Heq.
  - done.
  - apply (f_equal String.length) in Heq.
    rewrite !string_length_app in Heq. simpl in Heq. lia.
  - apply (f_equal String.length) in Heq.
    rewrite !string_length_app in Heq. simpl in Heq. lia.
  - injection Heq as -> Heq. f_equal. by apply IH.
Qed.

End Content.

(** X15: the data of a block is hashed as it is: with the other fields
    fixed, two different payloads give two different texts to hash.  So
    overwriting the data of a block is missed by the re-hash only when the
    data is the same or SHA-256 collides. *)
Theorem content_tells_data_apart (b : Block.t) (data data' : string) :
  data ≠ data' →
  Block.content (Block.set_data data b) ≠ Block.content (Block.set_data data' b).
Proof.
  intros Hne Heq. apply Hne. revert Heq.
  unfold Block.content. cbn [Block.set_data Block.header Block.data].
  intros Heq. apply string_app_inv_l, string_app_inv_l in Heq.
  by apply string_app_inv_r in Heq.
Qed.

Lemma content_tells_data_apart_witness :
  "Alice pays Bob 5"%string ≠ "Alice pays Bob 500"%string
  ∧ Block.content demo.alice
    ≠ Block.content (Block.set_data "Alice pays Bob 500" demo.alice).
Proof.
  assert (Hne : "Alice pays Bob 5"%string ≠ "Alice pays Bob 500"%string)
    by discriminate.
  split; [exact Hne|].
  exact (content_tells_data_apart demo.alice _ _ Hne).
Defined.

Lemma is_chain_valid_view (self self' : Blockchain.t) :
  length (Blockchain.chain self) = length (Blockchain.chain self') →
  (∀ i b b', Blockchain.chain self !! i = Some b →
     Blockchain.chain self' !! i = Some b' →
     BlockHeader.hash (Block.header b) = BlockHeader.hash (Block.header b')
     ∧ ((1 ≤ i)%nat → view b = view b')) →
  Blockchain.is_chain_valid self = Blockchain.is_chain_valid self'.
Proof.
  intros Hlen Hview. rewrite !is_chain_valid_eq. cbn zeta. rewrite <- Hlen.
  destruct (validator_range_ext (Blockchain.chain self') (Blockchain.chain self)
              (length (Blockchain.chain self) - 1) 1) as [-> ->]; [|done].
  intros i Hi.
  destruct (report_Some (Blockchain.chain self) i)
    as (current & previous & Hcur & Hprev & Hrep); [lia|].
  destruct (report_Some (Blockchain.chain self') i)
    as (current' & previous' & Hcur' & Hprev' & Hrep'); [lia|].
  destruct (Hview _ _ _ Hcur Hcur') as [_ Hsame]. specialize (Hsame ltac:(lia)).
  destruct (Hview _ _ _ Hprev Hprev') as [Hhash _].
  unfold view in Hsame. injection Hsame as Hcontent Hstored Hlink.
  assert (Hcalc : Block.calculate_hash current = Block.calculate_hash current')
    by (unfold Block.calculate_hash; by rewrite Hcontent).
  split.
  - unfold passes. rewrite Hcur, Hprev, Hcur', Hprev'.
    f_equal; apply bool_decide_ext; unfold sealed, linked.
    + by rewrite Hstored, Hcalc.
    + by rewrite Hlink, Hhash.
  - rewrite Hrep, Hrep'. unfold verdict.
    by rewrite Hstored, Hlink, Hcalc, Hhash.
Qed.

(** X16: [is_chain_valid] reads of a block only the text that is hashed,
    the stored hash and the previous hash, and of block 0 only the stored
    hash.  Two chains of the same length that agree on these get the same
    flag and the same lines, whatever their other differences; since the
    fields are hashed with nothing between them, text moved from the end of
    the time stamp to the front of the data is such a difference. *)
Theorem is_chain_valid_reads_view (self self' : Blockchain.t) :
  length (Blockchain.chain self) = length (Blockchain.chain self') →
  (∀ i b b', Blockchain.chain self !! i = Some b →
     Blockchain.chain self' !! i = Some b' →
     BlockHeader.hash (Block.header b) = BlockHeader.hash (Block.header b')
     ∧ ((1 ≤ i)%nat →
        Block.content b = Block.content b'
        ∧ BlockHeader.previous_hash (Block.header b)
          = BlockHeader.previous_hash (Block.header b'))) →
  Blockchain.is_chain_valid self = Blockchain.is_chain_valid self'.
Proof.
  intros Hlen Hsame. apply is_chain_valid_view; [done|].
  intros i b b' Hb Hb'. destruct (Hsame i b b' Hb Hb') as [Hhash Hrest].
  split; [done|]. intros Hi. destruct (Hrest Hi) as [Hcontent Hlink].
  unfold view. by rewrite Hcontent, Hhash, Hlink.
Qed.

Lemma is_chain_valid_reads_view_witness :
  let shifted :=
    {| Blockchain.difficulty := 1;
       Blockchain.chain :=
         [demo.genesis;
          demo.block 1 "2025-01-01 10:00:01.00000" demo.h0 8 demo.h1
                     "2Alice pays Bob 5";
          demo.bob] |} in
  length (Blockchain.chain demo.ledger) = length (Blockchain.chain shifted)
  ∧ Blockchain.is_chain_valid shifted = Returns (true, [BlockValid 1; BlockValid 2]).
Proof.
  intros shifted. split; [reflexivity|].
  rewrite <- (is_chain_valid_reads_view demo.ledger shifted eq_refl).
  - vm_compute. reflexivity.
  - intros [|[|[|i]]] b b' [= <-] [= <-]; (split; [reflexivity|]); intros _;
      split; reflexivity.
Defined.

Lemma relabel_view (d : Z) (b : Block.t) : view (relabel d b) = view b.
Proof. reflexivity. Qed.

Lemma is_chain_valid_relabel (self : Blockchain.t) (d : Z) :
  Blockchain.is_chain_valid
    {| Blockchain.difficulty := d;
       Blockchain.chain := map (relabel d) (Blockchain.chain self) |}
  = Blockchain.is_chain_valid self.
Proof.
  apply is_chain_valid_view; cbn [Blockchain.chain]; [apply length_map|].
  intros i b' b Hb' Hb. rewrite list_lookup_fmap, Hb in Hb'.
  injection Hb' as <-. split; [done|]. intros _. apply relabel_view.
Qed.

(** X17: validation does not look at the work.  The difficulty is neither
    hashed nor checked, and the zeros of the stored hashes are not counted:
    writing any difficulty into the chain and all its headers changes
    nothing of what [is_chain_valid] returns and prints, so a chain built
    at one difficulty validates under any other. *)
Theorem validation_ignores_difficulty (self : Blockchain.t) (d : Z) :
  Blockchain.is_chain_valid
    {| Blockchain.difficulty := d;
       Blockchain.chain := map (relabel d) (Blockchain.chain self) |}
  = Blockchain.is_chain_valid self
  ∧ (built self →
     Blockchain.is_chain_valid
       {| Blockchain.difficulty := d;
          Blockchain.chain := map (relabel d) (Blockchain.chain self) |}
     = Returns (true, map BlockValid (seq 1 (length (Blockchain.chain self) - 1)))).
Proof.
  split; [apply is_chain_valid_relabel|].
  intros Hbuilt. rewrite is_chain_valid_relabel.
  by apply well_formed_valid, built_well_formed.
Qed.

Lemma validation_ignores_difficulty_witness :
  built demo.ledger
  ∧ (∀ b, b ∈ map (relabel 64) (Blockchain.chain demo.ledger) →
       BlockHeader.difficulty (Block.header b) = 64)
  ∧ Blockchain.is_chain_valid
      {| Blockchain.difficulty := 64;
         Blockchain.chain := map (relabel 64) (Blockchain.chain demo.ledger) |}
    = Returns (true, [BlockValid 1; BlockValid 2]).
Proof.
  split; [exact demo_ledger_built|]. split.
  - intros b (b0 & -> & _)%list_elem_of_fmap. reflexivity.
  - exact (proj2 (validation_ignores_difficulty demo.ledger 64) demo_ledger_built).
Defined.

(** ** More on [search_block] *)

Section Search.

Implicit Types (self bc : Blockchain.t).

Lemma search_block_eq self keyword :
  Blockchain.search_block self keyword
  = match List.filter (hit keyword) (Blockchain.chain self) with
    | [] => [KeywordNotFound]
    | hits => map found_line hits
    end.
Proof.
  unfold Blockchain.search_block. rewrite search_fold. cbn [orb app].
  destruct (existsb (hit keyword) (Blockchain.chain self)) eqn:Hany.
  - destruct (List.filter _ _) eqn:Hhits; [|done].
    apply existsb_filter_nil in Hhits. congruence.
  - apply existsb_filter_nil in Hany. by rewrite Hany.
Qed.

Lemma search_block_Found self keyword index data :
  Found index data ∈ Blockchain.search_block self keyword
  ↔ ∃ b, b ∈ Blockchain.chain self
       ∧ BlockHeader.index (Block.header b) = index
       ∧ Block.data b = data
       ∧ occurs_in keyword data.
Proof.
  rewrite search_block_eq.
  assert (Hmap : Found index data
                   ∈ map found_line (List.filter (hit keyword) (Blockchain.chain self))
                 ↔ ∃ b, b ∈ Blockchain.chain self
                      ∧ BlockHeader.index (Block.header b) = index
                      ∧ Block.data b = data
                      ∧ occurs_in keyword data).
  { rewrite list_elem_of_fmap. split.
    - intros (b & [= -> ->] & Hb). apply list_elem_of_In, filter_In in Hb as [Hb Hhit].
      exists b. split; [by apply list_elem_of_In|]. repeat split.
      by apply contains_spec.
    - intros (b & Hb & <- & <- & Hocc). exists b. split; [done|].
      apply list_elem_of_In, filter_In. split; [by apply list_elem_of_In|].
      by apply contains_spec. }
  destruct (List.filter (hit keyword) (Blockchain.chain self)) eqn:Hhits; [|done].
  rewrite <- Hmap. cbn [map]. split; [|by intros ?%elem_of_nil].
  intros [=]%list_elem_of_singleton.
Qed.

Lemma kept_search_Found bc keyword index data :
  kept bc →
  Found index data ∈ Blockchain.search_block bc keyword
  ↔ 0 ≤ index
    ∧ ∃ b, Blockchain.chain bc !! Z.to_nat index = Some b
         ∧ Block.data b = data
         ∧ occurs_in keyword data.
Proof.
  intros [_ Hhead _ _]. rewrite search_block_Found. split.
  - intros (b & (pos & Hpos)%list_elem_of_lookup & <- & <- & Hocc).
    destruct (Hhead _ _ Hpos) as (-> & _). split; [lia|].
    exists b. by rewrite Nat2Z.id.
  - intros (Hindex & b & Hb & <- & Hocc). exists b.
    split; [by eapply list_elem_of_lookup_2|].
    destruct (Hhead _ _ Hb) as (-> & _). split; [lia | done].
Qed.

End Search.

(** X18: the empty keyword is found in every block: [search_block("")]
    prints the line of each block of the chain, in order. *)
Theorem search_block_empty_keyword (self : Blockchain.t) :
  Blockchain.search_block self ""
  = match Blockchain.chain self with
    | [] => [KeywordNotFound]
    | chain => map found_line chain
    end.
Proof.
  rewrite search_block_eq.
  assert (Hall : ∀ l, List.filter (hit "") l = l).
  { induction l as [|b l IH]; [done|]. cbn [List.filter].
    assert (hit "" b = true) as ->.
    { apply contains_spec. by exists EmptyString, (pystr.lower (Block.data b)). }
    by rewrite IH. }
  by rewrite Hall.
Qed.

(** X19: on a chain in use the index a search line shows is the place of
    the block in the chain, so the lines are exactly the places whose data
    holds the keyword, tampered blocks found by their marker. *)
Theorem search_block_reports_places (bc : Blockchain.t) (keyword : string)
    (index : Z) (data : string) :
  operated bc →
  Found index data ∈ Blockchain.search_block bc keyword
  ↔ 0 ≤ index
    ∧ ∃ b, Blockchain.chain bc !! Z.to_nat index = Some b
         ∧ Block.data b = data
         ∧ occurs_in keyword data.
Proof. intros Hkept%operated_kept. by apply kept_search_Found. Qed.

Lemma search_block_reports_places_witness :
  operated demo.ledger
  ∧ (Found 2 "Bob pays Carol 3" ∈ Blockchain.search_block demo.ledger "CAROL"
     ↔ 0 ≤ 2
       ∧ ∃ b, Blockchain.chain demo.ledger !! Z.to_nat 2 = Some b
            ∧ Block.data b = "Bob pays Carol 3"
            ∧ occurs_in "CAROL" "Bob pays Carol 3").
Proof.
  split; [exact demo_ledger_operated|].
  exact (search_block_reports_places demo.ledger "CAROL" 2 "Bob pays Carol 3"
           demo_ledger_operated).
Defined.

(** X20: a tampered block is found by its marker and by nothing else.
    After [tamper_block(index)] on a chain in use, with [index] in range,
    a search for a keyword that occurs in [Tampered Data] prints the line
    of block [index] with the marker, and no search prints the data the
    block had unless it was the marker. *)
Theorem search_block_after_tamper (bc : Blockchain.t) (index : Z) (keyword : string) :
  operated bc →
  0 < index < Z.of_nat (length (Blockchain.chain bc)) →
  (occurs_in keyword "Tampered Data" →
   Found index "Tampered Data"
     ∈ Blockchain.search_block (Blockchain.tamper_block bc index).1 keyword)
  ∧ ∀ data,
      Found index data
        ∈ Blockchain.search_block (Blockchain.tamper_block bc index).1 keyword →
      data = "Tampered Data"%string.
Proof.
  intros Hkept%operated_kept Hin.
  pose proof (tamper_block_kept bc index Hkept) as Hkept'.
  assert (Hat : ∀ b', Blockchain.chain (Blockchain.tamper_block bc index).1
                        !! Z.to_nat index = Some b' →
                      Block.data b' = "Tampered Data").
  { rewrite (tamper_block_inside bc index Hin). cbn [fst Blockchain.chain].
    intros b'. rewrite list_lookup_alter_eq.
    destruct (Blockchain.chain bc !! Z.to_nat index) as [b|]; [|done].
    by intros [= <-]. }
  split.
  - intros Hocc. apply (kept_search_Found _ _ _ _ Hkept'). split; [lia|].
    destruct (lookup_lt_is_Some_2
                (Blockchain.chain (Blockchain.tamper_block bc index).1)
                (Z.to_nat index)) as [b' Hb'].
    { rewrite (tamper_block_inside bc index Hin). cbn [fst Blockchain.chain].
      rewrite length_alter. lia. }
    exists b'. split; [done|]. split; [by apply Hat | done].
  - intros data (_ & b' & Hb' & <- & _)%(kept_search_Found _ _ _ _ Hkept').
    by apply Hat.
Qed.

Lemma search_block_after_tamper_witness :
  operated demo.ledger
  ∧ 0 < 1 < Z.of_nat (length (Blockchain.chain demo.ledger))
  ∧ occurs_in "DATA" "Tampered Data"
  ∧ Found 1 "Tampered Data"
      ∈ Blockchain.search_block (Blockchain.tamper_block demo.ledger 1).1 "DATA".
Proof.
  assert (Hin : 0 < 1 < Z.of_nat (length (Blockchain.chain demo.ledger)))
    by (simpl; lia).
  assert (Hocc : occurs_in "DATA" "Tampered Data")
    by (by exists "tampered "%string, ""%string).
  split; [exact demo_ledger_operated|]. split; [exact Hin|]. split; [exact Hocc|].
  exact (proj1 (search_block_after_tamper demo.ledger 1 "DATA"
                  demo_ledger_operated Hin) Hocc).
Defined.

(** * The application *)

Section App.

Implicit Types (bc : Blockchain.t) (s : string).

Lemma blank_cons c s :
  pyspace.blank (String c s) ↔ pyspace.isspace c = true ∧ pyspace.blank s.
Proof.
  unfold pyspace.blank. cbn [list_ascii_of_string].
  apply (Forall_cons (fun c => pyspace.isspace c = true)).
Qed.

Lemma blank_nil : pyspace.blank EmptyString.
Proof. constructor. Qed.

Lemma lstrip_blank s : pyspace.blank (pyspace.lstrip s) ↔ pyspace.blank s.
Proof.
  induction s as [|c s IH]; [done|]. cbn [pyspace.lstrip].
  destruct (pyspace.isspace c) eqn:Hc; [|done].
  rewrite IH, blank_cons. split; [by intros H | by intros [_ H]].
Qed.

Lemma rstrip_empty s : pyspace.rstrip s = EmptyString ↔ pyspace.blank s.
Proof.
  induction s as [|c s IH]; [by split; [intros _; apply blank_nil|]|].
  cbn [pyspace.rstrip]. rewrite blank_cons, <- IH.
  destruct (pyspace.rstrip s) as [|c' r]; destruct (pyspace.isspace c);
    (split; [intros H | intros [H1 H2]]); done.
Qed.

(** [s.strip() == ""] exactly when [s] has no character but white space. *)
Lemma strip_empty s :
  String.eqb (pyspace.strip s) "" = true ↔ pyspace.blank s.
Proof.
  rewrite String.eqb_eq. unfold pyspace.strip.
  by rewrite rstrip_empty, lstrip_blank.
Qed.

Lemma app_search_fold (keyword : string) (l : list Block.t) : ∀ found shown,
  foldl (app.search_step keyword) (found, shown) l
  = (found || existsb (hit keyword) l,
     shown ++ map (fun b => app.success (render (found_line b)).2)
                  (List.filter (hit keyword) l)).
Proof.
  induction l as [|block l IH]; intros found shown.
  - simpl. by rewrite orb_false_r, app_nil_r.
  - cbn [foldl existsb List.filter]. unfold app.search_step at 2.
    fold (hit keyword block).
    destruct (hit keyword block); rewrite IH.
    + cbn [map orb]. by rewrite orb_true_r, <- app_assoc.
    + done.
Qed.

End App.

(** X21: the action [Add Block] mines nothing for a blank text.  With the
    button pressed and a text of nothing but white space it returns at
    once, whatever the fuel and the difficulty, showing the warning and
    leaving the chain as it is.  For any other text it does what
    [add_block] does with the text as typed, and shows the success box when
    that returns.  Without the button it does nothing. *)
Theorem add_block_action_guard (bc : Blockchain.t) (data timestamp : string)
    (fuel : nat) :
  (pyspace.blank data →
   app.add_block_action bc data true timestamp fuel
   = Returns (bc, [app.warning "Please enter data before mining."]))
  ∧ (¬ pyspace.blank data →
     app.add_block_action bc data true timestamp fuel
     = match Blockchain.add_block bc data timestamp fuel with
       | Returns bc' =>
           Returns (bc', [app.success "New block successfully mined and added."])
       | Raises e => Raises e
       | OutOfFuel => OutOfFuel
       end)
  ∧ app.add_block_action bc data false timestamp fuel = Returns (bc, []).
Proof.
  unfold app.add_block_action. split; [|split; [|done]].
  - intros Hblank%strip_empty. by rewrite Hblank.
  - intros Hfull.
    destruct (String.eqb (pyspace.strip data) "") eqn:Hstrip.
    + by apply strip_empty in Hstrip.
    + by destruct (Blockchain.add_block bc data timestamp fuel).
Qed.

Lemma add_block_action_guard_witness :
  let hard := {| Blockchain.difficulty := 65;
                 Blockchain.chain := [demo.genesis] |} in
  pyspace.blank "    "
  ∧ app.add_block_action hard "    " true demo.t1 0
    = Returns (hard, [app.warning "Please enter data before mining."])
  ∧ ¬ pyspace.blank "Alice pays Bob 5"
  ∧ app.add_block_action demo3.started "Alice pays Bob 5" true demo3.t1 7
    = Returns (demo3.added,
               [app.success "New block successfully mined and added."]).
Proof.
  intros hard.
  assert (Hblank : pyspace.blank "    ") by (repeat constructor).
  assert (Hfull : ¬ pyspace.blank "Alice pays Bob 5")
    by (rewrite blank_cons; by intros [Hspace _]).
  split; [exact Hblank|]. split.
  - exact (proj1 (add_block_action_guard hard "    " demo.t1 0) Hblank).
  - split; [exact Hfull|].
    rewrite (proj1 (proj2 (add_block_action_guard demo3.started
                             "Alice pays Bob 5" demo3.t1 7)) Hfull).
    vm_compute. reflexivity.
Defined.

(** X22: through the action [Tamper with Block] the engine never refuses.
    The select box offers the positions of the chain; for position 0 the
    script warns and does not call the engine, and for any other position
    [tamper_block] is called, on pressing the button, with an index it
    accepts: the refusal line is never printed. *)
Theorem tamper_action_never_refused (bc : Blockchain.t) (tamper_index : Z)
    (button : bool) :
  0 ≤ tamper_index < Z.of_nat (length (Blockchain.chain bc)) →
  (CannotTamper ∉ (app.tamper_action bc tamper_index button).1.2)
  ∧ (tamper_index = 0 →
     app.tamper_action bc tamper_index button
     = (bc, [], [app.warning "Genesis block cannot be tampered."]))
  ∧ (tamper_index ≠ 0 → button = true →
     (app.tamper_action bc tamper_index button).1
     = Blockchain.tamper_block bc tamper_index
     ∧ (app.tamper_action bc tamper_index button).1.2 = [Tampered tamper_index])
  ∧ (tamper_index ≠ 0 → button = false →
     app.tamper_action bc tamper_index button = (bc, [], [])).
Proof.
  intros Hin. unfold app.tamper_action.
  destruct (tamper_index =? 0) eqn:Hzero.
  - apply Z.eqb_eq in Hzero. cbn [fst snd].
    split; [by intros ?%elem_of_nil|]. split; [done|]. split; [done|]. done.
  - apply Z.eqb_neq in Hzero. destruct button.
    + rewrite (tamper_block_inside bc tamper_index) by lia. cbn [fst snd].
      split; [by intros [=]%list_elem_of_singleton|].
      split; [done|]. split; [done|]. done.
    + cbn [fst snd]. split; [by intros ?%elem_of_nil|]. done.
Qed.

Lemma tamper_action_never_refused_witness :
  0 ≤ 2 < Z.of_nat (length (Blockchain.chain demo.ledger))
  ∧ (CannotTamper ∉ (app.tamper_action demo.ledger 2 true).1.2)
  ∧ (app.tamper_action demo.ledger 2 true).1.2 = [Tampered 2].
Proof.
  assert (Hin : 0 ≤ 2 < Z.of_nat (length (Blockchain.chain demo.ledger)))
    by (simpl; lia).
  split; [exact Hin|].
  destruct (tamper_action_never_refused demo.ledger 2 true Hin)
    as (Hnever & _ & Hcall & _).
  split; [exact Hnever|].
  exact (proj2 (Hcall ltac:(lia) eq_refl)).
Defined.

(** X23: the search of the application, a loop of its own, shows what the
    engine's [search_block] prints: a box for each line, in the same order
    and with the same text for a block found; only the words for nothing
    found differ. *)
Theorem search_action_agrees (bc : Blockchain.t) (keyword : string) :
  app.search_action bc keyword true
  = map (fun m => match m with
                  | KeywordNotFound => app.error "Keyword not found in any block."
                  | _ => app.success (render m).2
                  end)
        (Blockchain.search_block bc keyword)
  ∧ app.search_action bc keyword false = [].
Proof.
  split; [|done]. rewrite search_block_eq. unfold app.search_action.
  rewrite app_search_fold. cbn [orb app].
  destruct (existsb (hit keyword) (Blockchain.chain bc)) eqn:Hany.
  - destruct (List.filter _ _) as [|b hits] eqn:Hhits.
    + apply existsb_filter_nil in Hhits. congruence.
    + cbn [negb]. rewrite <- list_fmap_compose. reflexivity.
  - apply existsb_filter_nil in Hany. by rewrite Hany.
Qed.

Section Session.

Lemma not_blank_genesis : ¬ pyspace.blank "Genesis Block".
Proof. rewrite blank_cons. by intros [Hspace _]. Qed.

Lemma not_blank_marker : ¬ pyspace.blank "Tampered Data".
Proof. rewrite blank_cons. by intros [Hspace _]. Qed.

Lemma session_inv (bc : Blockchain.t) :
  app.session bc →
  operated bc
  ∧ Blockchain.difficulty bc = 3
  ∧ ∀ i b, Blockchain.chain bc !! i = Some b → ¬ pyspace.blank (Block.data b).
Proof.
  induction 1 as [timestamp fuel bc Hinit
                 | bc data button timestamp fuel bc' shown _ (IHop & IHd & IHdata) Hadd
                 | bc tamper_index button _ (IHop & IHd & IHdata) Hin].
  - split; [by eapply operated_init|].
    apply init_returns in Hinit as (g & Hg & ->). split; [done|].
    apply Block_init_returns in Hg as (n & _ & Hg & _).
    intros [|i] b [=]. subst b. rewrite Hg. apply not_blank_genesis.
  - unfold app.add_block_action in Hadd. destruct button.
    + destruct (String.eqb (pyspace.strip data) "") eqn:Hstrip.
      * by injection Hadd as <- _.
      * destruct (Blockchain.add_block bc data timestamp fuel) as [bc''| |] eqn:Hcall;
          [|done..].
        injection Hadd as <- _.
        split; [eapply operated_step; [exact IHop | by eapply step_add]|].
        apply add_block_returns in Hcall as (tail & nb & _ & Hnb & ->).
        split; [done|]. cbn [Blockchain.chain].
        intros i b [Hb | [_ [_ <-]%list_lookup_singleton_Some]]%lookup_app_Some.
        -- by apply (IHdata i).
        -- apply Block_init_returns in Hnb as (n & _ & -> & _).
           cbn [Block.data Block.with_hash Block.with_nonce Block.set_header
                Block.draft].
           intros Hblank%strip_empty. congruence.
    + by injection Hadd as <- _.
  - unfold app.tamper_action.
    destruct (tamper_index =? 0) eqn:Hzero; [done|]. apply Z.eqb_neq in Hzero.
    destruct button; [|done].
    rewrite (tamper_block_inside bc tamper_index) by lia. cbn [fst].
    split.
    { replace {| Blockchain.difficulty := Blockchain.difficulty bc;
                 Blockchain.chain := _ |}
        with (Blockchain.tamper_block bc tamper_index).1
        by (by rewrite (tamper_block_inside bc tamper_index) by lia).
      eapply operated_step; [exact IHop | apply step_tamper]. }
    split; [done|]. cbn [Blockchain.chain]. intros i b Hb.
    destruct (decide (i = Z.to_nat tamper_index)) as [->|Hne].
    + rewrite list_lookup_alter_eq in Hb.
      destruct (Blockchain.chain bc !! Z.to_nat tamper_index) as [b0|]; [|done].
      injection Hb as <-. apply not_blank_marker.
    + rewrite list_lookup_alter_ne in Hb by done. by apply (IHdata i).
Qed.

End Session.

(** X24: every chain a session of the application goes through is a chain
    in use at difficulty 3: no block has a blank payload, and every stored
    hash is set and begins with three zeros, tampered blocks included. *)
Theorem session_chain (bc : Blockchain.t) :
  app.session bc →
  operated bc
  ∧ Blockchain.difficulty bc = 3
  ∧ ∀ i b, Blockchain.chain bc !! i = Some b →
      ¬ pyspace.blank (Block.data b)
      ∧ ∃ h, BlockHeader.hash (Block.header b) = Some h
           ∧ (3 ≤ pystr.leading_zeros h)%nat.
Proof.
  intros (Hop & Hd & Hdata)%session_inv. split; [done|]. split; [done|].
  intros i b Hb. split; [by apply (Hdata i)|].
  destruct (kept_header _ (operated_kept _ Hop) _ _ Hb) as (_ & _ & h & Hh & Hz).
  exists h. split; [done|]. rewrite Hd in Hz. exact Hz.
Qed.

Lemma session_chain_witness :
  app.session (app.tamper_action demo3.added 1 true).1.1
  ∧ Blockchain.chain (app.tamper_action demo3.added 1 true).1.1
    = [demo3.block 0 demo3.t0 "0" 7 demo3.h0 "Genesis Block";
       demo3.block 1 demo3.t1 demo3.h0 6 demo3.h1 "Tampered Data"]
  ∧ operated (app.tamper_action demo3.added 1 true).1.1
  ∧ Blockchain.difficulty (app.tamper_action demo3.added 1 true).1.1 = 3.
Proof.
  assert (Hsession : app.session (app.tamper_action demo3.added 1 true).1.1).
  { apply app.session_tamper; [|simpl; lia].
    apply (app.session_add demo3.started "Alice pays Bob 5" true demo3.t1 7 _
             [app.success "New block successfully mined and added."]).
    - apply (app.session_start demo3.t0 8). vm_compute. reflexivity.
    - vm_compute. reflexivity. }
  split; [exact Hsession|]. split; [reflexivity|].
  destruct (session_chain _ Hsession) as (Hop & Hd & _).
  split; [exact Hop | exact Hd].
Defined.

(** X25: on a chain in use [get_latest_block] never raises: it returns the
    block at the last position, whose index is the length of the chain
    less one, which is the block the next [add_block] will point at. *)
Theorem get_latest_block_operated (bc : Blockchain.t) :
  operated bc →
  ∃ b, Blockchain.get_latest_block bc = Returns b
     ∧ Blockchain.chain bc !! (length (Blockchain.chain bc) - 1)%nat = Some b
     ∧ BlockHeader.index (Block.header b)
       = Z.of_nat (length (Blockchain.chain bc)) - 1.
Proof.
  intros [(g & Hg & _) Hhead _ _]%operated_kept.
  apply lookup_lt_Some in Hg.
  destruct (lookup_lt_is_Some_2 (Blockchain.chain bc)
              (length (Blockchain.chain bc) - 1)) as [b Hb]; [lia|].
  exists b. unfold Blockchain.get_latest_block. rewrite last_lookup.
  replace (pred (length (Blockchain.chain bc)))
    with (length (Blockchain.chain bc) - 1)%nat by lia.
  rewrite Hb. split; [done|]. split; [done|].
  destruct (Hhead _ _ Hb) as (-> & _). lia.
Qed.

Lemma get_latest_block_operated_witness :
  operated demo.ledger
  ∧ ∃ b, Blockchain.get_latest_block demo.ledger = Returns b
       ∧ Blockchain.chain demo.ledger
           !! (length (Blockchain.chain demo.ledger) - 1)%nat = Some b
       ∧ BlockHeader.index (Block.header b)
         = Z.of_nat (length (Blockchain.chain demo.ledger)) - 1.
Proof.
  split; [exact demo_ledger_operated|].
  exact (get_latest_block_operated demo.ledger demo_ledger_operated).
Defined.

(** X26: block 0 is never checked.  A chain of at most one block
    validates whatever the block holds, and on any chain, putting in
    place of block 0 a block with the same stored hash, whatever its other
    fields, changes neither the flag nor the lines of [is_chain_valid]. *)
Theorem genesis_never_checked (self : Blockchain.t) (g : Block.t) :
  ((length (Blockchain.chain self) ≤ 1)%nat →
   Blockchain.is_chain_valid self = Returns (true, []))
  ∧ ((∃ g0, Blockchain.chain self !! 0%nat = Some g0
          ∧ BlockHeader.hash (Block.header g0) = BlockHeader.hash (Block.header g)) →
     Blockchain.is_chain_valid
       {| Blockchain.difficulty := Blockchain.difficulty self;
          Blockchain.chain := <[0%nat := g]> (Blockchain.chain self) |}
     = Blockchain.is_chain_valid self).
Proof.
  split.
  - intros Hlen. rewrite is_chain_valid_eq. cbn zeta.
    by replace (length (Blockchain.chain self) - 1)%nat with 0%nat by lia.
  - intros (g0 & Hg0 & Hhash). apply is_chain_valid_view; cbn [Blockchain.chain].
    + apply length_insert.
    + intros [|i] b' b Hb' Hb.
      * rewrite list_lookup_insert_eq in Hb' by (by eapply lookup_lt_Some).
        injection Hb' as <-. split; [congruence | lia].
      * rewrite list_lookup_insert_ne in Hb' by done.
        split; [congruence|]. intros _. congruence.
Qed.

Lemma genesis_never_checked_witness :
  let forged := demo.block 7 "1999-12-31 23:59:59.999999" "ffff" (-3) demo.h0
                  "Nobody owes anything" in
  (∃ g0, Blockchain.chain demo.ledger !! 0%nat = Some g0
       ∧ BlockHeader.hash (Block.header g0) = BlockHeader.hash (Block.header forged))
  ∧ Blockchain.is_chain_valid
      {| Blockchain.difficulty := 1;
         Blockchain.chain := [forged; demo.alice; demo.bob] |}
    = Returns (true, [BlockValid 1; BlockValid 2]).
Proof.
  intros forged.
  assert (Hsame : ∃ g0, Blockchain.chain demo.ledger !! 0%nat = Some g0
            ∧ BlockHeader.hash (Block.header g0)
              = BlockHeader.hash (Block.header forged))
    by (by exists demo.genesis).
  split; [exact Hsame|].
  refine (eq_trans (proj2 (genesis_never_checked demo.ledger forged) Hsame) _).
  vm_compute. reflexivity.
Defined.
